(** * A user-management HTTP service: credential handling and CRUD handlers

  The repository holds several near-duplicate variants of one service:
  - [ArrayService]: the in-memory array variant (the "code" entry of
    src/unnamed/part_000), with [ArrayAwait] for its update split at the
    [await];
  - [MapStore]: the in-memory map store (src/unnamed/part_002), a plain
    JavaScript object with its prototype chain;
  - [PgService] and [PgRoutes]: the relational variant (src/src/index.ts),
    the latter with the [catch] path of a query the database refuses;
  - [MongoService]: the document-store variant (the "code" entry of
    src/unnamed/part_004).

  Handlers are functions from a request and the current store to a
  response and the next store.  What the JavaScript runtime draws from
  outside the program (the random salt of bcrypt, the ObjectId of a new
  document) is an explicit argument. *)

From Stdlib Require Import ZArith String List.
From stdpp Require Import base option list gmap strings pretty.

Local Open Scope Z_scope.
Local Open Scope string_scope.
Local Open Scope list_scope.
Local Open Scope stdpp_scope.

(** ** bcrypt

    The handlers call [bcrypt.hash(password, 12)], or [bcrypt.genSalt(12)]
    followed by [bcrypt.hash(password, salt)].  bcrypt is a dependency: its
    code is not in the repository. *)
Module Bcrypt.

(** The salt a call draws: 16 random bytes. *)
Definition salt := string.

(** The value the key derivation yields for a cost, a salt and the data
    hashed, kept as a term. *)
Inductive digest : Type :=
| Eksblowfish (cost : nat) (s : salt) (data : string).

(** Modelled from the spec: the encoded hash bcrypt returns, whose code is
    not in the repository.  It embeds the cost factor and the salt next to
    the digest ([$2b$<cost>$<salt><digest>]). *)
Record encoded : Type := Encoded {
  cost : nat;
  salt_of : salt;
  digest_of : digest
}.

#[global] Instance digest_eq_dec : EqDecision digest.
Proof. solve_decision. Defined.

#[global] Instance encoded_eq_dec : EqDecision encoded.
Proof. solve_decision. Defined.

(** Modelled from the spec: [bcrypt.hash(data, rounds)], a salted one-way
    hash with a work factor; [s] is the salt this call drew. *)
Definition hash (data : string) (rounds : nat) (s : salt) : encoded :=
  {| cost := rounds; salt_of := s; digest_of := Eksblowfish rounds s data |}.

(** Modelled from the spec: [bcrypt.compare(data, encoded)], which no file of
    the source calls.  It derives again with the cost and the salt embedded
    in the encoded hash and answers whether the digests match. *)
Definition compare (data : string) (e : encoded) : bool :=
  bool_decide (Eksblowfish (cost e) (salt_of e) data = digest_of e).

End Bcrypt.

(** ** JSON values of response bodies *)
Module Json.

#[warnings="-register-all"]
Inductive json : Type :=
| JNum (n : Z)
| JStr (s : string)
| JHash (h : Bcrypt.encoded)   (** the string bcrypt returned *)
| JArr (items : list json)
| JObj (props : list (string * json)).

(** The value under key [k] of an object, if the object has that key. *)
Fixpoint assoc (k : string) (props : list (string * json)) : option json :=
  match props with
  | [] => None
  | (k', v) :: rest => if decide (k' = k) then Some v else assoc k rest
  end.

Definition getProperty (k : string) (j : json) : option json :=
  match j with
  | JObj props => assoc k props
  | _ => None
  end.

(** jest's [toHaveProperty(k)]: the key exists, whatever its value. *)
Definition hasProperty (k : string) (j : json) : bool :=
  bool_decide (is_Some (getProperty k j)).

End Json.
Import Json.

(** ** Requests and responses *)
Module Http.

(** [req.body] after [express.json()], destructured as
    [{ name, email, password }]: a field is absent ([undefined]) or a
    string, as [interface User] and the parameter types of the map store
    type them; other JSON values are outside the model. *)
Record body : Type := Body {
  name : option string;
  email : option string;
  password : option string
}.

(** [!s] for a string [s]: only the empty string is falsy. *)
Definition falsy (s : string) : bool := bool_decide (s = "").

(** [!x] for a body field: [undefined] and the empty string are falsy. *)
Definition not_ (x : option string) : bool :=
  match x with
  | None => true
  | Some s => falsy s
  end.

(** [res.status(c).json(j)], or [res.status(c).send()] with no body. *)
Record response : Type := Response {
  status : nat;
  payload : option json
}.

Definition json_response (c : nat) (j : json) : response :=
  {| status := c; payload := Some j |}.

(** [res.status(c).json({ error: msg })] *)
Definition error_response (c : nat) (msg : string) : response :=
  json_response c (JObj [("error", JStr msg)]).

(** The error kinds of the specification, as the handlers put them on the
    wire: 400 is a validation error, 404 not found, 409 a conflict. *)
Inductive error : Type :=
| ValidationError (msg : string)
| NotFoundError (msg : string)
| ConflictError (msg : string)
| InternalError (msg : string).

Definition error_of_response (r : response) : option error :=
  match payload r with
  | Some (JObj [(k, JStr msg)]) =>
      if decide (k = "error") then
        match status r with
        | 400%nat => Some (ValidationError msg)
        | 404%nat => Some (NotFoundError msg)
        | 409%nat => Some (ConflictError msg)
        | 500%nat => Some (InternalError msg)
        | _ => None
        end
      else None
  | _ => None
  end.

End Http.
Import Http.

(** ** The in-memory array variant (src/unnamed/part_000, "code") *)
Module ArrayService.

(** An element of [users]: [{ id, name, email, password }]. *)
Record user : Type := User {
  id : Z;
  name : string;
  email : string;
  password : Bcrypt.encoded
}.

#[global] Instance user_eq_dec : EqDecision user.
Proof. solve_decision. Defined.

(** [res.json(user)] serialises every own property of the object. *)
Definition toJSON (u : user) : json :=
  JObj [("id", JNum (id u)); ("name", JStr (name u));
        ("email", JStr (email u)); ("password", JHash (password u))].

(** [parseInt(req.params.id)]: a number, or [NaN] ([None]). *)
Definition number := option Z.

(** [u.id === userId]; [NaN] is equal to no number. *)
Definition id_is (userId : number) (u : user) : Prop := Some (id u) = userId.

#[global] Instance id_is_dec userId u : Decision (id_is userId u).
Proof. unfold id_is. apply _. Defined.

(** [users.find((u) => u.id === userId)] *)
Definition find (userId : number) (users : list user) : option user :=
  snd <$> list_find (id_is userId) users.

(** [users.findIndex((u) => u.id === userId)]; [-1] is [None]. *)
Definition findIndex (userId : number) (users : list user) : option nat :=
  fst <$> list_find (id_is userId) users.

Definition saltRounds : nat := 12.

Definition missing_required_fields : response :=
  error_response 400 "Missing required fields".

Definition user_not_found : response :=
  error_response 404 "User not found".

(** [app.post('/users', ...)] *)
Definition post_users (b : body) (s : Bcrypt.salt) (users : list user)
  : response * list user :=
  match Http.name b, Http.email b, Http.password b with
  | Some name, Some email, Some password =>
      if falsy name || falsy email || falsy password
      then (missing_required_fields, users)
      else
        let hashedPassword := Bcrypt.hash password saltRounds s in
        let newUser :=
          {| id := Z.of_nat (length users) + 1; name := name; email := email;
             password := hashedPassword |} in
        (json_response 201 (toJSON newUser), users ++ [newUser])
  | _, _, _ =>
      (* a field is undefined, and [!undefined] holds *)
      (missing_required_fields, users)
  end.

(** [app.get('/users', ...)] *)
Definition get_users (users : list user) : response * list user :=
  (json_response 200 (JArr (toJSON <$> users)), users).

(** [app.get('/users/:id', ...)] *)
Definition get_users_id (userId : number) (users : list user)
  : response * list user :=
  match find userId users with
  | None => (user_not_found, users)
  | Some user => (json_response 200 (toJSON user), users)
  end.

(** [app.put('/users/:id', ...)], served with no other request during its
    [await]; [ArrayAwait] below splits it at the await. *)
Definition put_users_id (userId : number) (b : body) (s : Bcrypt.salt)
  (users : list user) : response * list user :=
  match Http.name b, Http.email b, Http.password b with
  | Some name, Some email, Some password =>
      if falsy name || falsy email || falsy password
      then (missing_required_fields, users)
      else
        match userId with
        | None =>
            (* no [u.id] is [=== NaN]: [findIndex] returns [-1] *)
            (user_not_found, users)
        | Some uid =>
            match findIndex (Some uid) users with
            | None => (user_not_found, users)
            | Some userIndex =>
                let hashedPassword := Bcrypt.hash password saltRounds s in
                let updatedUser :=
                  {| id := uid; name := name; email := email;
                     password := hashedPassword |} in
                (json_response 200 (toJSON updatedUser),
                 <[userIndex := updatedUser]> users)
            end
        end
  | _, _, _ => (missing_required_fields, users)
  end.

(** [app.delete('/users/:id', ...)]: [users.splice(userIndex, 1)] and
    [res.status(204).send()]. *)
Definition delete_users_id (userId : number) (users : list user)
  : response * list user :=
  match findIndex userId users with
  | None => (user_not_found, users)
  | Some userIndex =>
      ({| status := 204; payload := None |}, delete userIndex users)
  end.

(** The requests the service answers. *)
Inductive request : Type :=
| POST_users (b : body) (s : Bcrypt.salt)
| GET_users
| GET_users_id (userId : number)
| PUT_users_id (userId : number) (b : body) (s : Bcrypt.salt)
| DELETE_users_id (userId : number).

Definition handle (r : request) (users : list user) : response * list user :=
  match r with
  | POST_users b s => post_users b s users
  | GET_users => get_users users
  | GET_users_id userId => get_users_id userId users
  | PUT_users_id userId b s => put_users_id userId b s users
  | DELETE_users_id userId => delete_users_id userId users
  end.

(** The store after a sequence of requests, starting from [users]. *)
Definition run (rs : list request) (users : list user) : list user :=
  foldl (fun st r => snd (handle r st)) users rs.

End ArrayService.

(** ** The update of the array variant, across its [await]

    [app.put('/users/:id', ...)] of part_000 looks the index up (line 89),
    awaits [bcrypt.hash] (line 97) and only then writes
    [users[userIndex] = updatedUser] (line 100).  Other requests can be
    served during the await, so the write meets the array as it is then.
    [ArrayService.put_users_id] is the update served with no request in
    between. *)
Module ArrayAwait.

(** What the handler holds while it awaits the hash. *)
Record pending : Type := Pending {
  userId : Z;
  name : string;
  email : string;
  password : string;
  userIndex : nat
}.

(** The handler up to the await: a response, or the index it found. *)
Definition lookup (userId : ArrayService.number) (b : body)
  (users : list ArrayService.user) : response + pending :=
  match Http.name b, Http.email b, Http.password b with
  | Some name, Some email, Some password =>
      if falsy name || falsy email || falsy password
      then inl ArrayService.missing_required_fields
      else
        match userId with
        | None => inl ArrayService.user_not_found
        | Some uid =>
            match ArrayService.findIndex (Some uid) users with
            | None => inl ArrayService.user_not_found
            | Some userIndex =>
                inr {| userId := uid; name := name; email := email;
                       password := password; userIndex := userIndex |}
            end
        end
  | _, _, _ => inl ArrayService.missing_required_fields
  end.

(** [users[i] = x] on a JavaScript array, whose positions may be empty
    ([None]): a write past the end extends the array and leaves the
    positions in between empty. *)
Definition assign (i : nat) (x : ArrayService.user)
  (users : list (option ArrayService.user)) : list (option ArrayService.user) :=
  if decide (i < length users)%nat
  then <[i := Some x]> users
  else users ++ replicate (i - length users) None ++ [Some x].

(** The handler after the await, on the array as it is by then. *)
Definition write (p : pending) (s : Bcrypt.salt)
  (users : list (option ArrayService.user))
  : response * list (option ArrayService.user) :=
  let hashedPassword := Bcrypt.hash (password p) ArrayService.saltRounds s in
  let updatedUser :=
    {| ArrayService.id := userId p; ArrayService.name := name p;
       ArrayService.email := email p;
       ArrayService.password := hashedPassword |} in
  (json_response 200 (ArrayService.toJSON updatedUser),
   assign (userIndex p) updatedUser users).

End ArrayAwait.

(** ** The in-memory map store (src/unnamed/part_002)

    [users] is a plain JavaScript object: a read [users[id]] also finds what
    the object inherits, and an assignment to [users['__proto__']] replaces
    its prototype.  The parameter [user] is any object the declared type
    admits, with whatever own properties it carries. *)
Module MapStore.

(** A JavaScript value, as far as an object spread tells values apart. *)
#[warnings="-register-all"]
Inductive value : Type :=
| VUndefined
| VStr (s : string)
| VPrimitive (printed : string)  (** a number, a boolean, [null], ... *)
| VBuiltin (name : string)       (** [Object.prototype] or one of its
                                     methods: no own enumerable property *)
| VObj (props : gmap string value).
                                 (** an object, by its own enumerable
                                     properties *)

(** The module-level [users]: its own properties, each a record one of the
    functions below stored, and its prototype, [Object.prototype] ([None])
    or the record an assignment to ['__proto__'] installed. *)
Record object : Type := Object {
  own : gmap string (gmap string value);
  proto : option (gmap string value)
}.

(** [users] and the [userId] counter. *)
Record store : Type := Store {
  users : object;
  userId : N
}.

Definition empty : store :=
  {| users := {| own := ∅; proto := None |}; userId := 1%N |}.

(** The data properties every object inherits from [Object.prototype]. *)
Definition Object_prototype : list string :=
  ["constructor"; "__defineGetter__"; "__defineSetter__"; "hasOwnProperty";
   "__lookupGetter__"; "__lookupSetter__"; "isPrototypeOf";
   "propertyIsEnumerable"; "toString"; "valueOf"; "toLocaleString"].

(** What a read of [k] finds up the prototype chain: a property of the
    installed record, else the ['__proto__'] accessor of [Object.prototype],
    which answers the prototype, else a method of [Object.prototype]. *)
Definition inherited (k : string) (o : object) : value :=
  match proto o ≫= (fun r => r !! k) with
  | Some v => v
  | None =>
      if decide (k = "__proto__")
      then match proto o with
           | Some r => VObj r
           | None => VBuiltin "Object.prototype"
           end
      else if bool_decide (k ∈ Object_prototype) then VBuiltin k
      else VUndefined
  end.

(** [users[k]] *)
Definition get (k : string) (o : object) : value :=
  match own o !! k with
  | Some r => VObj r
  | None => inherited k o
  end.

(** [users[k] = r]: the assignment reaches the ['__proto__'] setter, which
    replaces the prototype, when neither [users] nor the installed record
    has an own property of that name; it writes an own property
    otherwise. *)
Definition set (k : string) (r : gmap string value) (o : object) : object :=
  if bool_decide (k = "__proto__" /\ own o !! k = None
                  /\ proto o ≫= (fun p => p !! k) = None)
  then {| own := own o; proto := Some r |}
  else {| own := <[k := r]> (own o); proto := proto o |}.

(** The own enumerable properties of a string: its characters (code units
    below 256, one [ascii] each), under their indices from [i] on. *)
Fixpoint chars (i : nat) (s : string) : gmap string value :=
  match s with
  | EmptyString => ∅
  | String c rest =>
      <[pretty i := VStr (String c EmptyString)]> (chars (Datatypes.S i) rest)
  end.

(** [{ ...v }]: the own enumerable properties of [v]. *)
Definition spread (v : value) : gmap string value :=
  match v with
  | VObj props => props
  | VStr s => chars 0 s
  | _ => ∅
  end.

Inductive thrown : Type :=
| ReferenceError (identifier : string).

(** [userId++] on a JavaScript number: exact below 2^53, where adding one
    rounds back to 2^53. *)
Definition increment (n : N) : N :=
  if (n <? 9007199254740992)%N then (n + 1)%N else n.

(** [addUser]: the object literal [{ id: userId.toString(), name, email,
    password: user.password }] reads the identifiers [name] and [email].
    The module declares neither, so they are looked up among the globals of
    the runtime, and a missing one throws before [users] or [userId] is
    written.  Of [user] only [user.password] is read. *)
Definition addUser (globals : gmap string value) (user : gmap string value)
  (st : store) : thrown + (gmap string value * store) :=
  match globals !! "name" with
  | None => inl (ReferenceError "name")
  | Some name =>
      match globals !! "email" with
      | None => inl (ReferenceError "email")
      | Some email =>
          let newUser : gmap string value :=
            {[ "id" := VStr (pretty (userId st)); "name" := name;
               "email" := email;
               "password" := default VUndefined (user !! "password") ]} in
          inr (newUser,
               {| users := set (pretty (userId st)) newUser (users st);
                  userId := increment (userId st) |})
      end
  end.

(** [findUserById]: [users[id]] *)
Definition findUserById (id : string) (st : store) : value :=
  get id (users st).

(** [updateUser]: in [{ ...users[id], ...user }] a later property wins. *)
Definition updateUser (id : string) (user : gmap string value) (st : store)
  : gmap string value * store :=
  let updatedUser := user ∪ spread (get id (users st)) in
  (updatedUser,
   {| users := set id updatedUser (users st); userId := userId st |}).

(** [deleteUser]: [delete users[id]] removes an own property and nothing
    else; nothing is returned. *)
Definition deleteUser (id : string) (st : store) : store :=
  {| users := {| own := delete id (own (users st));
                 proto := proto (users st) |};
     userId := userId st |}.

End MapStore.

(** ** The relational variant: the update handler of src/src/index.ts *)
Module PgService.

(** A row of the [users] table, with the columns of [interface User]. *)
Record row : Type := Row {
  id : Z;
  name : string;
  email : string;
  password : Bcrypt.encoded
}.

(** [res.json(result.rows[0])] after [RETURNING *]: every column. *)
Definition toJSON (r : row) : json :=
  JObj [("id", JNum (id r)); ("name", JStr (name r));
        ("email", JStr (email r)); ("password", JHash (password r))].

(** SQL [COALESCE($n, column)]; the driver sends [undefined] and [null] as
    [NULL]. *)
Definition COALESCE {A : Type} (param : option A) (column : A) : A :=
  default column param.

(** [UPDATE users SET name = COALESCE($1, name), email = COALESCE($2, email),
    password = COALESCE($3, password) WHERE id = $4 RETURNING *] on a table
    with no constraint of its own: the rows returned, and the table. *)
Definition update_users (p1 p2 : option string) (p3 : option Bcrypt.encoded)
  (p4 : Z) (table : list row) : list row * list row :=
  let set (r : row) :=
    if decide (id r = p4)
    then {| id := id r; name := COALESCE p1 (name r);
            email := COALESCE p2 (email r);
            password := COALESCE p3 (password r) |}
    else r in
  (set <$> filter (fun r => id r = p4) table, set <$> table).

Definition invalid_user_id : response := error_response 400 "Invalid user ID".

Definition no_fields_to_update : response :=
  error_response 400 "No fields to update".

Definition user_not_found : response := error_response 404 "User not found".

(** [app.put('/users/:id', ...)] on a run in which the database carries out
    the query; [userId] is [parseInt(req.params.id)].  [PgRoutes] below has
    the handler with its [catch] path. *)
Definition put_users_id (userId : option Z) (b : body) (s : Bcrypt.salt)
  (table : list row) : response * list row :=
  match userId with
  | None => (invalid_user_id, table)
  | Some uid =>
      if not_ (Http.name b) && not_ (Http.email b) && not_ (Http.password b)
      then (no_fields_to_update, table)
      else
        let hashedPassword :=
          match Http.password b with
          | Some password =>
              if falsy password then None
              else Some (Bcrypt.hash password 12 s)
          | None => None
          end in
        let '(rows, table') :=
          update_users (Http.name b) (Http.email b) hashedPassword uid table in
        match rows with
        | [] => (user_not_found, table')
        | r :: _ => (json_response 200 (toJSON r), table')
        end
  end.

End PgService.

(** ** The document-store variant (src/unnamed/part_004, "code")

    mongoose is a dependency: [save], [findById], [findByIdAndUpdate] and
    [findByIdAndDelete] follow its documentation for the schema the source
    declares, on a collection whose indexes are built. *)
Module MongoService.

Definition ObjectId := string.

(** A document of the [User] model: the three schema paths, with the [_id]
    and the version key mongoose adds. *)
Record document : Type := Document {
  _id : ObjectId;
  name : string;
  email : string;
  password : Bcrypt.encoded;
  __v : nat
}.

(** [res.json(doc)] of a document loaded with every path. *)
Definition toJSON (d : document) : json :=
  JObj [("_id", JStr (_id d)); ("name", JStr (name d));
        ("email", JStr (email d)); ("password", JHash (password d));
        ("__v", JNum (Z.of_nat (__v d)))].

(** [res.json(doc)] of a document loaded with the projection
    [{ password: 0 }]. *)
Definition toJSON_without_password (d : document) : json :=
  JObj [("_id", JStr (_id d)); ("name", JStr (name d));
        ("email", JStr (email d)); ("__v", JNum (Z.of_nat (__v d)))].

Definition SALT_ROUNDS : nat := 12.

Inductive mongo_error : Type :=
| E11000            (** duplicate key: [err.code === 11000] *)
| ValidatorError    (** a [required] path is empty; no [code] *)
| CastError.        (** the id is no ObjectId; no [code] *)

(** The [required: true] validators of [userSchema]: a string path must be
    non-empty (the stored password is a bcrypt string, never empty). *)
Definition validators_pass (name email : string) : bool :=
  negb (falsy name) && negb (falsy email).

(** Modelled from the spec: the uniqueness of the address is enforced by the
    storage collaborator, whose code is not in the repository.
    [newUser.save()] validates, then inserts under the unique indexes on
    [_id] and on [email] ([unique: true]); a duplicate key is error 11000. *)
Definition save (d : document) (coll : list document)
  : mongo_error + list document :=
  if negb (validators_pass (name d) (email d)) then inl ValidatorError
  else if bool_decide
            (Exists (fun d' => _id d' = _id d \/ email d' = email d) coll)
  then inl E11000
  else inr (coll ++ [d]).

(** Modelled from the spec: the storage collaborator updates in place and
    enforces the uniqueness of the address.
    [User.findByIdAndUpdate(id, { name, email, password }, { new: true,
    runValidators: true })] answers the updated document, or [null] ([None])
    when no document has this [_id]. *)
Definition findByIdAndUpdate (id : option ObjectId)
  (new_name new_email : string) (hashed : Bcrypt.encoded)
  (coll : list document)
  : mongo_error + (option document * list document) :=
  match id with
  | None => inl CastError
  | Some oid =>
      if negb (validators_pass new_name new_email) then inl ValidatorError
      else
        match list_find (fun d => _id d = oid) coll with
        | None => inr (None, coll)
        | Some (i, d) =>
            if bool_decide
                 (Exists (fun d' => _id d' <> oid /\ email d' = new_email) coll)
            then inl E11000
            else
              let d' := {| _id := _id d; name := new_name; email := new_email;
                           password := hashed; __v := __v d |} in
              inr (Some d', <[i := d']> coll)
        end
  end.

(** [User.findById(id, { password: 0 })] *)
Definition findById (id : option ObjectId) (coll : list document)
  : mongo_error + option document :=
  match id with
  | None => inl CastError
  | Some oid => inr (snd <$> list_find (fun d => _id d = oid) coll)
  end.

(** [User.findByIdAndDelete(id)] *)
Definition findByIdAndDelete (id : option ObjectId) (coll : list document)
  : mongo_error + (option document * list document) :=
  match id with
  | None => inl CastError
  | Some oid =>
      match list_find (fun d => _id d = oid) coll with
      | None => inr (None, coll)
      | Some (i, d) => inr (Some d, delete i coll)
      end
  end.

Definition missing_required_fields : response :=
  error_response 400 "Missing required fields".

Definition email_already_exists : response :=
  error_response 409 "Email already exists".

Definition internal_server_error : response :=
  error_response 500 "Internal server error".

Definition user_not_found : response := error_response 404 "User not found".

(** The [catch (err)] block of the create and update handlers. *)
Definition catch (err : mongo_error) : response :=
  match err with
  | E11000 => email_already_exists
  | _ => internal_server_error
  end.

(** The [validateInput] middleware: a response, or [next()] ([None]). *)
Definition validateInput (b : body) : option response :=
  if not_ (Http.name b) || not_ (Http.email b) || not_ (Http.password b)
  then Some missing_required_fields
  else None.

(** The text of a body field handed to a string schema path; an absent field
    leaves the path empty. *)
Definition path_value (x : option string) : string := default "" x.

(** The handler of [app.post('/users', validateInput, ...)]; [oid] is the
    ObjectId [new User] draws. *)
Definition create_user (b : body) (s : Bcrypt.salt) (oid : ObjectId)
  (coll : list document) : response * list document :=
  match Http.password b with
  | None =>
      (* [bcrypt.hash(undefined, ...)] rejects; the error has no [code] *)
      (internal_server_error, coll)
  | Some password =>
      let hashedPassword := Bcrypt.hash password SALT_ROUNDS s in
      let newUser :=
        {| _id := oid; name := path_value (Http.name b);
           email := path_value (Http.email b);
           password := hashedPassword; __v := 0 |} in
      match save newUser coll with
      | inr coll' =>
          (json_response 201
             (JObj [("message", JStr "User created successfully")]), coll')
      | inl err => (catch err, coll)
      end
  end.

(** [app.post('/users', validateInput, ...)] *)
Definition post_users (b : body) (s : Bcrypt.salt) (oid : ObjectId)
  (coll : list document) : response * list document :=
  match validateInput b with
  | Some r => (r, coll)
  | None => create_user b s oid coll
  end.

(** [app.get('/users', ...)] *)
Definition get_users (coll : list document) : response * list document :=
  (json_response 200 (JArr (toJSON_without_password <$> coll)), coll).

(** [app.get('/users/:id', ...)]; [id] is [req.params.id] cast to an
    ObjectId, [None] when the cast fails. *)
Definition get_users_id (id : option ObjectId) (coll : list document)
  : response * list document :=
  match findById id coll with
  | inl _ => (internal_server_error, coll)
  | inr None => (user_not_found, coll)
  | inr (Some user) => (json_response 200 (toJSON_without_password user), coll)
  end.

(** The handler of [app.put('/users/:id', validateInput, ...)]. *)
Definition update_user (id : option ObjectId) (b : body) (s : Bcrypt.salt)
  (coll : list document) : response * list document :=
  match Http.password b with
  | None => (internal_server_error, coll)
  | Some password =>
      let hashedPassword := Bcrypt.hash password SALT_ROUNDS s in
      match findByIdAndUpdate id (path_value (Http.name b))
              (path_value (Http.email b)) hashedPassword coll with
      | inl err => (catch err, coll)
      | inr (None, _) => (user_not_found, coll)
      | inr (Some updatedUser, coll') =>
          (json_response 200
             (JObj [("message", JStr "User updated successfully");
                    ("user", toJSON updatedUser)]), coll')
      end
  end.

(** [app.put('/users/:id', validateInput, ...)] *)
Definition put_users_id (id : option ObjectId) (b : body) (s : Bcrypt.salt)
  (coll : list document) : response * list document :=
  match validateInput b with
  | Some r => (r, coll)
  | None => update_user id b s coll
  end.

(** [app.delete('/users/:id', ...)] *)
Definition delete_users_id (id : option ObjectId) (coll : list document)
  : response * list document :=
  match findByIdAndDelete id coll with
  | inl _ => (internal_server_error, coll)
  | inr (None, _) => (user_not_found, coll)
  | inr (Some _, coll') =>
      (json_response 200
         (JObj [("message", JStr "User deleted successfully")]), coll')
  end.

End MongoService.

(** ** The Credential Guard of the specification

    No function of the source verifies a secret against a stored hash, and
    no variant wraps hashing in a function of its own: the handlers call
    bcrypt in line after their [!password] test. *)
Module CredentialGuard.

Inductive outcome : Type :=
| Rejected                          (** [ValidationError] *)
| Hashed (credentialHash : Bcrypt.encoded).

(** The configured work factor: the [12] every variant passes to bcrypt. *)
Definition workFactor : nat := 12.

(** Modelled from the spec: [prepareCredential] is no function of the source.
    It fails with a validation error when [rawSecret] is absent or empty, and
    otherwise applies the salted hash with the configured work factor and the
    salt drawn for this call. *)
Definition prepareCredential (rawSecret : option string) (s : Bcrypt.salt)
  : outcome :=
  match rawSecret with
  | None => Rejected
  | Some secret =>
      if falsy secret then Rejected
      else Hashed (Bcrypt.hash secret workFactor s)
  end.

(** Modelled from the spec: [verifyCredential] is no function of the source.
    It recomputes the hash check against the stored encoded hash, which
    embeds the original salt and cost factor, and returns whether they
    match. *)
Definition verifyCredential (rawSecret : string)
  (credentialHash : Bcrypt.encoded) : bool :=
  Bcrypt.compare rawSecret credentialHash.

End CredentialGuard.

(** ** Policies of the specification, stated over any handler *)
Section Policies.

(** A store type [S], what a handler draws from outside [E], and the type of
    the identifiers a route parses [I]. *)
Context {S E I : Type}.

(** An update is rejected as "No fields to update" when every mutable field
    is absent. *)
Definition partial_update_policy
  (update : option I -> body -> E -> S -> response * S) : Prop :=
  forall (i : I) (x : E) (st : S),
    error_of_response
      (update (Some i) {| name := None; email := None; password := None |}
         x st).1
    = Some (ValidationError "No fields to update").

(** An update is rejected as "Missing required fields" when any of the three
    fields is absent. *)
Definition full_replacement_policy
  (update : option I -> body -> E -> S -> response * S) : Prop :=
  forall (i : I) (b : body) (x : E) (st : S),
    name b = None \/ email b = None \/ password b = None ->
    error_of_response (update (Some i) b x st).1
    = Some (ValidationError "Missing required fields").

(** A create whose address some stored account already has is rejected as a
    conflict and adds nothing; [addresses] lists the stored addresses. *)
Definition rejects_duplicate_address
  (create : body -> E -> S -> response * S) (addresses : S -> list string)
  : Prop :=
  forall (n e p : string) (x : E) (st : S),
    n <> "" -> e <> "" -> p <> "" -> e ∈ addresses st ->
    let b := {| name := Some n; email := Some e; password := Some p |} in
    error_of_response (create b x st).1
      = Some (ConflictError "Email already exists")
    /\ (create b x st).2 = st.

End Policies.

(** One of the two update policies holds of every update handler of the
    repository. *)
Definition uniform_update_policy : Prop :=
  (partial_update_policy ArrayService.put_users_id
   /\ partial_update_policy PgService.put_users_id
   /\ partial_update_policy MongoService.put_users_id)
  \/
  (full_replacement_policy ArrayService.put_users_id
   /\ full_replacement_policy PgService.put_users_id
   /\ full_replacement_policy MongoService.put_users_id).

(** A field that is present and not the empty string. *)
Definition present_non_empty (x : option string) : Prop :=
  exists s : string, x = Some s /\ s <> "".

(** A field that is absent or the empty string. *)
Definition absent_or_empty (x : option string) : Prop :=
  x = None \/ x = Some "".

(** The request bodies of the test suites. *)
Definition john_doe : body :=
  {| name := Some "John Doe"; email := Some "john@example.com";
     password := Some "password123" |}.

Definition john_doe_without_password : body :=
  {| name := Some "John Doe"; email := Some "john@example.com";
     password := None |}.

Definition jane_doe : body :=
  {| name := Some "Jane Doe"; email := Some "jane@example.com";
     password := Some "newpassword" |}.

(** The account a successful create appends. *)
Definition created (n e p : string) (s : Bcrypt.salt)
  (users : list ArrayService.user) : ArrayService.user :=
  {| ArrayService.id := Z.of_nat (length users) + 1;
     ArrayService.name := n; ArrayService.email := e;
     ArrayService.password := Bcrypt.hash p ArrayService.saltRounds s |}.

(** The account the first create of the test suite stores. *)
Definition john_stored : ArrayService.user :=
  created "John Doe" "john@example.com" "password123" "salt-1" [].

(** The requests of the scenario: two creates, a delete of the first
    account, a third create. *)
Definition reuse_scenario : list ArrayService.request :=
  [ ArrayService.POST_users john_doe "salt-1";
    ArrayService.POST_users jane_doe "salt-2";
    ArrayService.DELETE_users_id (Some 1);
    ArrayService.POST_users john_doe "salt-3" ].

(** ** The routes of the relational variant with their [catch] path
    (src/src/index.ts) *)
Module PgRoutes.

(** The four statements the handlers send, with their parameters. *)
Inductive statement : Type :=
| SELECT_users (p1 : Z)
| INSERT_users (p1 p2 : string) (p3 : Bcrypt.encoded)
| UPDATE_users (p1 p2 : option string) (p3 : option Bcrypt.encoded) (p4 : Z)
| DELETE_users (p1 : Z).

(** [SELECT * FROM users WHERE id = $1]: the rows returned. *)
Definition select_users (p1 : Z) (table : list PgService.row)
  : list PgService.row :=
  filter (fun r => PgService.id r = p1) table.

(** [DELETE FROM users WHERE id = $1 RETURNING *]: the rows returned, and the
    table. *)
Definition delete_users (p1 : Z) (table : list PgService.row)
  : list PgService.row * list PgService.row :=
  (filter (fun r => PgService.id r = p1) table,
   filter (fun r => PgService.id r <> p1) table).

(** Modelled from the spec: the identifier is assigned by the storage
    collaborator at creation time; the table's definition is not in the
    repository.  [INSERT INTO users (name, email, password) VALUES ($1, $2,
    $3) RETURNING *], [newid] being the identifier the database assigns:
    the rows returned, and the table. *)
Definition insert_users (p1 p2 : string) (p3 : Bcrypt.encoded) (newid : Z)
  (table : list PgService.row) : list PgService.row * list PgService.row :=
  let r := {| PgService.id := newid; PgService.name := p1;
              PgService.email := p2; PgService.password := p3 |} in
  ([r], table ++ [r]).

Definition missing_required_fields : response :=
  error_response 400 "Missing required fields".

(** [next(error)] reaches the error-handling middleware. *)
Definition internal_server_error : response :=
  error_response 500 "Internal server error".

Section Database.

(** Modelled from the spec: the account store is a collaborator that
    enforces its own constraints (the uniqueness of the address among them);
    the table's definition is not in the repository.  [accepts q table]
    says whether the database carries out statement [q] on [table]; when it
    does not, [client.query] rejects, the table is unchanged and the
    handler's [catch] calls [next(error)]. *)
Variable accepts : statement -> list PgService.row -> bool.

(** [app.post('/users', ...)] *)
Definition post_users (b : body) (s : Bcrypt.salt) (newid : Z)
  (table : list PgService.row) : response * list PgService.row :=
  match Http.name b, Http.email b, Http.password b with
  | Some name, Some email, Some password =>
      if falsy name || falsy email || falsy password
      then (missing_required_fields, table)
      else
        let hashedPassword := Bcrypt.hash password 12 s in
        if accepts (INSERT_users name email hashedPassword) table
        then
          let '(rows, table') :=
            insert_users name email hashedPassword newid table in
          match rows with
          | r :: _ => (json_response 201 (PgService.toJSON r), table')
          | [] =>
              (* [res.status(201).json(undefined)] *)
              ({| status := 201; payload := None |}, table')
          end
        else (internal_server_error, table)
  | _, _, _ => (missing_required_fields, table)
  end.

(** [app.get('/users/:id', ...)]; [userId] is [parseInt(req.params.id)]. *)
Definition get_users_id (userId : option Z) (table : list PgService.row)
  : response * list PgService.row :=
  match userId with
  | None => (PgService.invalid_user_id, table)
  | Some uid =>
      if accepts (SELECT_users uid) table
      then
        match select_users uid table with
        | [] => (PgService.user_not_found, table)
        | r :: _ => (json_response 200 (PgService.toJSON r), table)
        end
      else (internal_server_error, table)
  end.

(** [app.put('/users/:id', ...)] *)
Definition put_users_id (userId : option Z) (b : body) (s : Bcrypt.salt)
  (table : list PgService.row) : response * list PgService.row :=
  match userId with
  | None => (PgService.invalid_user_id, table)
  | Some uid =>
      if not_ (Http.name b) && not_ (Http.email b) && not_ (Http.password b)
      then (PgService.no_fields_to_update, table)
      else
        let hashedPassword :=
          match Http.password b with
          | Some password =>
              if falsy password then None
              else Some (Bcrypt.hash password 12 s)
          | None => None
          end in
        if accepts
             (UPDATE_users (Http.name b) (Http.email b) hashedPassword uid)
             table
        then
          let '(rows, table') :=
            PgService.update_users (Http.name b) (Http.email b)
              hashedPassword uid table in
          match rows with
          | [] => (PgService.user_not_found, table')
          | r :: _ => (json_response 200 (PgService.toJSON r), table')
          end
        else (internal_server_error, table)
  end.

(** [app.delete('/users/:id', ...)] *)
Definition delete_users_id (userId : option Z) (table : list PgService.row)
  : response * list PgService.row :=
  match userId with
  | None => (PgService.invalid_user_id, table)
  | Some uid =>
      if accepts (DELETE_users uid) table
      then
        let '(rows, table') := delete_users uid table in
        match rows with
        | [] => (PgService.user_not_found, table')
        | r :: _ => (json_response 200 (PgService.toJSON r), table')
        end
      else (internal_server_error, table)
  end.

End Database.

End PgRoutes.

(** ** The CORS origin checks (src/unnamed/part_000 and part_004, "code") *)
Module Cors.

Definition allowedOrigins : list string :=
  ["https://example.com"; "http://localhost:3000"].

(** What the check hands to [callback]: [(null, true)], or an [Error]. *)
Inductive verdict : Type :=
| Allowed
| Refused (message : string).

(** [Array.prototype.indexOf]: the first index of an element [===] to [x], or
    [-1]; [undefined] is equal to no string. *)
Definition indexOf (l : list string) (x : option string) : Z :=
  match x with
  | None => -1
  | Some s =>
      match list_find (fun y => y = s) l with
      | Some (i, _) => Z.of_nat i
      | None => -1
      end
  end.

(** [Array.prototype.includes] *)
Definition includes (l : list string) (x : option string) : bool :=
  match x with
  | None => false
  | Some s => bool_decide (s ∈ l)
  end.

(** The [origin] function of [corsOptions] in part_000. *)
Definition origin_part_000 (origin : option string) : verdict :=
  if negb (indexOf allowedOrigins origin =? -1)%Z || not_ origin
  then Allowed
  else Refused "Not allowed by CORS".

(** The [origin] function passed to [cors] in part_004. *)
Definition origin_part_004 (origin : option string) : verdict :=
  if not_ origin || includes allowedOrigins origin
  then Allowed
  else Refused "Not allowed by CORS".

End Cors.

(** What the [SET] clause of the update makes of a row. *)
Definition pg_set (p1 p2 : option string) (p3 : option Bcrypt.encoded)
  (p4 : Z) (r : PgService.row) : PgService.row :=
  if decide (PgService.id r = p4)
  then {| PgService.id := PgService.id r;
          PgService.name := PgService.COALESCE p1 (PgService.name r);
          PgService.email := PgService.COALESCE p2 (PgService.email r);
          PgService.password :=
            PgService.COALESCE p3 (PgService.password r) |}
  else r.

(** The hash the update hands to the query: none when the password is
    absent or empty. *)
Definition pg_hashed (b : body) (s : Bcrypt.salt) : option Bcrypt.encoded :=
  match password b with
  | Some p => if falsy p then None else Some (Bcrypt.hash p 12 s)
  | None => None
  end.

(** Arguments of the map store: the declared three properties, and an object
    that carries an [id] as well, as a stored user does. *)
Definition jane_fields : gmap string MapStore.value :=
  {[ "name" := MapStore.VStr "Jane Doe";
     "email" := MapStore.VStr "jane@example.com";
     "password" := MapStore.VStr "newpassword" ]}.

Definition john_with_id (id : string) : gmap string MapStore.value :=
  {[ "id" := MapStore.VStr id; "name" := MapStore.VStr "John Doe";
     "email" := MapStore.VStr "john@example.com";
     "password" := MapStore.VStr "password123" ]}.

(** Modelled from the spec: the address is unique among stored accounts and
    the store enforces it; the table's definition is not in the repository.
    One database the spec's words admit: [id] is an [integer] column and
    [email] has a unique index, so that a statement whose identifier no
    [integer] holds, or that would store an address a second time, is
    refused. *)
Definition accepts_integer_id_unique_email (q : PgRoutes.statement)
  (table : list PgService.row) : bool :=
  let integer (n : Z) : bool :=
    bool_decide (-2147483648 <= n <= 2147483647) in
  match q with
  | PgRoutes.SELECT_users p1 => integer p1
  | PgRoutes.DELETE_users p1 => integer p1
  | PgRoutes.INSERT_users _ p2 _ =>
      bool_decide (p2 ∉ PgService.email <$> table)
  | PgRoutes.UPDATE_users _ p2 _ p4 =>
      integer p4
      && match p2 with
         | Some e =>
             bool_decide
               (e ∉ PgService.email
                      <$> filter (fun r => PgService.id r <> p4) table)
             && bool_decide
                  (length (filter (fun r => PgService.id r = p4) table) <= 1)%nat
         | None => true
         end
  end.

(** The account the second create of [reuse_scenario] stores. *)
Definition jane_stored : ArrayService.user :=
  created "Jane Doe" "jane@example.com" "newpassword" "salt-2" [john_stored].

(** The stored identifiers of the array variant are [1, 2, ..., n]. *)
Definition numbered (users : list ArrayService.user) : Prop :=
  ArrayService.id <$> users = Z.of_nat <$> seq 1 (length users).

(** A request of the array variant other than a delete. *)
Definition no_delete (r : ArrayService.request) : Prop :=
  match r with
  | ArrayService.DELETE_users_id _ => False
  | _ => True
  end.

(** The addresses and the identifiers of a collection are pairwise
    distinct. *)
Definition unique_keys (coll : list MongoService.document) : Prop :=
  NoDup (MongoService.email <$> coll) /\ NoDup (MongoService._id <$> coll).

(** * Facts *)

(** ** Body fields *)

Lemma falsy_true (s : string) : falsy s = true <-> s = "".
Proof. unfold falsy. apply bool_decide_eq_true. Qed.

Lemma falsy_false (s : string) : falsy s = false <-> s <> "".
Proof. unfold falsy. apply bool_decide_eq_false. Qed.

Lemma not_true (x : option string) : not_ x = true <-> absent_or_empty x.
Proof.
  unfold absent_or_empty. destruct x as [s|]; simpl.
  - rewrite falsy_true. split.
    + intros ->. now right.
    + intros [H|H]; [discriminate | now injection H].
  - split; [now left | reflexivity].
Qed.

Lemma not_false (x : option string) : not_ x = false <-> present_non_empty x.
Proof.
  unfold present_non_empty. destruct x as [s|]; simpl.
  - rewrite falsy_false. split.
    + intros H. now exists s.
    + intros (s' & [= <-] & H). exact H.
  - split; [discriminate | intros (s' & H & _); discriminate].
Qed.

(** ** bcrypt and the Credential Guard *)

Lemma compare_hash (data : string) (rounds : nat) (s : Bcrypt.salt) :
  Bcrypt.compare data (Bcrypt.hash data rounds s) = true.
Proof.
  unfold Bcrypt.compare, Bcrypt.hash; simpl. now apply bool_decide_eq_true.
Qed.

Lemma hash_salt_inj (data : string) (rounds : nat) (s1 s2 : Bcrypt.salt) :
  Bcrypt.hash data rounds s1 = Bcrypt.hash data rounds s2 -> s1 = s2.
Proof. unfold Bcrypt.hash. now intros [= ->]. Qed.

Lemma prepareCredential_hashed (secret : string) (s : Bcrypt.salt) :
  secret <> "" ->
  CredentialGuard.prepareCredential (Some secret) s
  = CredentialGuard.Hashed
      (Bcrypt.hash secret CredentialGuard.workFactor s).
Proof.
  intros H. unfold CredentialGuard.prepareCredential.
  apply falsy_false in H. now rewrite H.
Qed.

(** C2. For every non-empty secret, the hash [prepareCredential] produces for
    it verifies against the same secret: [verifyCredential] answers [true]. *)
Theorem verify_after_prepare (rawSecret : string) (s : Bcrypt.salt) :
  rawSecret <> "" ->
  exists h : Bcrypt.encoded,
    CredentialGuard.prepareCredential (Some rawSecret) s
    = CredentialGuard.Hashed h
    /\ CredentialGuard.verifyCredential rawSecret h = true.
Proof.
  intros H. eexists. split.
  - now apply prepareCredential_hashed.
  - apply compare_hash.
Qed.

Lemma verify_after_prepare_witness :
  exists h : Bcrypt.encoded,
    CredentialGuard.prepareCredential (Some "password123") "salt-1"
    = CredentialGuard.Hashed h
    /\ CredentialGuard.verifyCredential "password123" h = true.
Proof.
  apply (verify_after_prepare "password123" "salt-1"). discriminate.
Defined.

(** C3. For every non-empty secret, two invocations of [prepareCredential]
    that drew different salts produce different encoded hashes, and each of
    the two verifies against the secret. *)
Theorem prepare_twice_differs (rawSecret : string) (s1 s2 : Bcrypt.salt) :
  rawSecret <> "" ->
  s1 <> s2 ->
  exists h1 h2 : Bcrypt.encoded,
    CredentialGuard.prepareCredential (Some rawSecret) s1
    = CredentialGuard.Hashed h1
    /\ CredentialGuard.prepareCredential (Some rawSecret) s2
       = CredentialGuard.Hashed h2
    /\ h1 <> h2
    /\ CredentialGuard.verifyCredential rawSecret h1 = true
    /\ CredentialGuard.verifyCredential rawSecret h2 = true.
Proof.
  intros Hne Hsalt. do 2 eexists.
  split; [now apply prepareCredential_hashed |].
  split; [now apply prepareCredential_hashed |].
  split; [| split; apply compare_hash].
  intros Heq. apply Hsalt. eapply hash_salt_inj, Heq.
Qed.

Lemma prepare_twice_differs_witness :
  exists h1 h2 : Bcrypt.encoded,
    CredentialGuard.prepareCredential (Some "password123") "salt-1"
    = CredentialGuard.Hashed h1
    /\ CredentialGuard.prepareCredential (Some "password123") "salt-2"
       = CredentialGuard.Hashed h2
    /\ h1 <> h2
    /\ CredentialGuard.verifyCredential "password123" h1 = true
    /\ CredentialGuard.verifyCredential "password123" h2 = true.
Proof.
  apply (prepare_twice_differs "password123" "salt-1" "salt-2"); discriminate.
Defined.

(** ** The in-memory array variant *)

Lemma array_post_accepted (n e p : string) (s : Bcrypt.salt)
  (users : list ArrayService.user) :
  n <> "" -> e <> "" -> p <> "" ->
  ArrayService.post_users
    {| name := Some n; email := Some e; password := Some p |} s users
  = (json_response 201 (ArrayService.toJSON (created n e p s users)),
     users ++ [created n e p s users]).
Proof.
  intros Hn He Hp. unfold ArrayService.post_users; simpl.
  apply falsy_false in Hn, He, Hp. now rewrite Hn, He, Hp.
Qed.

Lemma array_post_rejected (b : body) (s : Bcrypt.salt)
  (users : list ArrayService.user) :
  absent_or_empty (name b) \/ absent_or_empty (email b)
  \/ absent_or_empty (password b) ->
  ArrayService.post_users b s users
  = (ArrayService.missing_required_fields, users).
Proof.
  intros H. unfold ArrayService.post_users.
  destruct b as [[n|] [e|] [p|]]; simpl; try reflexivity.
  destruct H as [H|[H|H]]; apply not_true in H; simpl in H; rewrite H;
    rewrite ?orb_true_r; reflexivity.
Qed.

(** Every create is either rejected for a missing field or appends one
    account. *)
Lemma array_post_cases (b : body) (s : Bcrypt.salt)
  (users : list ArrayService.user) :
  ((absent_or_empty (name b) \/ absent_or_empty (email b)
    \/ absent_or_empty (password b))
   /\ ArrayService.post_users b s users
      = (ArrayService.missing_required_fields, users))
  \/
  (exists n e p : string,
      b = {| name := Some n; email := Some e; password := Some p |}
      /\ n <> "" /\ e <> "" /\ p <> ""
      /\ ArrayService.post_users b s users
         = (json_response 201 (ArrayService.toJSON (created n e p s users)),
            users ++ [created n e p s users])).
Proof.
  destruct (not_ (name b)) eqn:Hn.
  { left. apply not_true in Hn. split; [|apply array_post_rejected]; tauto. }
  destruct (not_ (email b)) eqn:He.
  { left. apply not_true in He. split; [|apply array_post_rejected]; tauto. }
  destruct (not_ (password b)) eqn:Hp.
  { left. apply not_true in Hp. split; [|apply array_post_rejected]; tauto. }
  right. apply not_false in Hn, He, Hp.
  destruct Hn as (n & Hn & Hn'), He as (e & He & He'), Hp as (p & Hp & Hp').
  exists n, e, p. destruct b as [bn be bp]; simpl in *; subst.
  repeat split; try assumption. now apply array_post_accepted.
Qed.

(** C1. At the create request of the test suite, on the empty store, the
    handler answers 201 with a body that has the property [password]: the
    stored bcrypt hash is serialised with the account, where the test
    expects [not.toHaveProperty('password')]. *)
Theorem array_create_exposes_password (s : Bcrypt.salt) :
  exists j : json,
    ArrayService.post_users john_doe s []
    = (json_response 201 j,
       [created "John Doe" "john@example.com" "password123" s []])
    /\ hasProperty "password" j = true
    /\ getProperty "password" j
       = Some (JHash (Bcrypt.hash "password123" 12 s)).
Proof. eexists. split; [reflexivity | split; reflexivity]. Qed.

(** The same holds of every account the array variant serialises. *)
Lemma array_toJSON_has_password (u : ArrayService.user) :
  hasProperty "password" (ArrayService.toJSON u) = true.
Proof. reflexivity. Qed.

(** The read routes of the document-store variant leave the property out. *)
Lemma mongo_projection_has_no_password (d : MongoService.document) :
  hasProperty "password" (MongoService.toJSON_without_password d) = false.
Proof. reflexivity. Qed.

(** Its update route answers with the whole document. *)
Lemma mongo_toJSON_has_password (d : MongoService.document) :
  hasProperty "password" (MongoService.toJSON d) = true.
Proof. reflexivity. Qed.

(** So a read of the document-store variant never carries the property,
    whatever it answers. *)
Lemma mongo_get_users_id_hides_password (id : option MongoService.ObjectId)
  (coll : list MongoService.document) (j : json) :
  payload (MongoService.get_users_id id coll).1 = Some j ->
  hasProperty "password" j = false.
Proof.
  unfold MongoService.get_users_id.
  destruct (MongoService.findById id coll) as [err|[d|]]; simpl;
    intros [= <-]; reflexivity.
Qed.

Lemma mongo_get_users_hides_password (coll : list MongoService.document) :
  exists items : list json,
    payload (MongoService.get_users coll).1 = Some (JArr items)
    /\ Forall (fun j => hasProperty "password" j = false) items.
Proof.
  eexists. split; [reflexivity|].
  apply Forall_fmap, Forall_forall. intros d _. reflexivity.
Qed.

(** A 200 answer of its update route carries the property under [user]. *)
Lemma mongo_put_exposes_password (id : option MongoService.ObjectId)
  (b : body) (s : Bcrypt.salt) (coll coll' : list MongoService.document)
  (r : response) :
  MongoService.put_users_id id b s coll = (r, coll') ->
  status r = 200%nat ->
  exists j : json,
    payload r ≫= getProperty "user" = Some j
    /\ hasProperty "password" j = true.
Proof.
  unfold MongoService.put_users_id, MongoService.validateInput.
  destruct (_ || _); [intros [= <- <-]; discriminate|].
  unfold MongoService.update_user.
  destruct (password b) as [p|]; [|intros [= <- <-]; discriminate].
  destruct (MongoService.findByIdAndUpdate _ _ _ _ _) as [err|[[d|] c]].
  - destruct err; intros [= <- <-]; discriminate.
  - intros [= <- <-] _. eexists. split; reflexivity.
  - intros [= <- <-]; discriminate.
Qed.

(** Every 200 answer of a read of the array variant carries it. *)
Lemma array_get_exposes_password (userId : ArrayService.number)
  (users : list ArrayService.user) (j : json) :
  status (ArrayService.get_users_id userId users).1 = 200%nat ->
  payload (ArrayService.get_users_id userId users).1 = Some j ->
  hasProperty "password" j = true.
Proof.
  unfold ArrayService.get_users_id.
  destruct (ArrayService.find userId users) as [u|]; simpl.
  - intros _ [= <-]. reflexivity.
  - discriminate.
Qed.

(** ** Validation before a create *)

Lemma validateInput_rejects (b : body) :
  absent_or_empty (name b) \/ absent_or_empty (email b)
  \/ absent_or_empty (password b) ->
  MongoService.validateInput b = Some MongoService.missing_required_fields.
Proof.
  intros H. unfold MongoService.validateInput.
  destruct H as [H|[H|H]]; apply not_true in H; rewrite H;
    rewrite ?orb_true_r; reflexivity.
Qed.

Lemma validateInput_passes (b : body) :
  MongoService.validateInput b = None ->
  present_non_empty (name b) /\ present_non_empty (email b)
  /\ present_non_empty (password b).
Proof.
  unfold MongoService.validateInput. rewrite <- !not_false.
  destruct (not_ (name b)), (not_ (email b)), (not_ (password b));
    simpl; intros H; try discriminate; auto.
Qed.

Lemma validateInput_next (n e p : string) :
  n <> "" -> e <> "" -> p <> "" ->
  MongoService.validateInput
    {| name := Some n; email := Some e; password := Some p |} = None.
Proof.
  intros Hn He Hp. unfold MongoService.validateInput; simpl.
  apply falsy_false in Hn, He, Hp. now rewrite Hn, He, Hp.
Qed.

(** C4. A create answers 201 only when name, email and password are all
    present and non-empty; when one of them is absent or empty the answer is
    the validation error 400 "Missing required fields" and the store is the
    one before the request.  Both for the array variant and for the
    document-store variant, whose route runs [validateInput] first. *)
Theorem create_requires_all_fields (b : body) (s : Bcrypt.salt)
  (users : list ArrayService.user) (oid : MongoService.ObjectId)
  (coll : list MongoService.document) :
  (status (ArrayService.post_users b s users).1 = 201%nat
   \/ status (MongoService.post_users b s oid coll).1 = 201%nat ->
   present_non_empty (name b) /\ present_non_empty (email b)
   /\ present_non_empty (password b))
  /\
  (absent_or_empty (name b) \/ absent_or_empty (email b)
   \/ absent_or_empty (password b) ->
   ArrayService.post_users b s users
   = (error_response 400 "Missing required fields", users)
   /\ MongoService.post_users b s oid coll
      = (error_response 400 "Missing required fields", coll)
   /\ error_of_response (error_response 400 "Missing required fields")
      = Some (ValidationError "Missing required fields")).
Proof.
  split.
  - intros [H|H].
    + destruct (array_post_cases b s users)
        as [[_ Hr]|(n & e & p & -> & Hn & He & Hp & _)].
      * rewrite Hr in H. discriminate.
      * simpl. unfold present_non_empty. eauto 10.
    + unfold MongoService.post_users in H.
      destruct (MongoService.validateInput b) as [r|] eqn:Hv.
      * unfold MongoService.validateInput in Hv.
        destruct (_ || _) in Hv; [|discriminate].
        injection Hv as <-. discriminate.
      * now apply validateInput_passes.
  - intros H. split; [|split].
    + now apply array_post_rejected.
    + unfold MongoService.post_users. now rewrite validateInput_rejects.
    + reflexivity.
Qed.

Lemma create_requires_all_fields_witness :
  ArrayService.post_users john_doe_without_password "salt-1" []
  = (error_response 400 "Missing required fields", [])
  /\ MongoService.post_users john_doe_without_password "salt-1"
       "63f9c6f9c6f9c6f9c6f9c6f9" []
     = (error_response 400 "Missing required fields", [])
  /\ error_of_response (error_response 400 "Missing required fields")
     = Some (ValidationError "Missing required fields").
Proof.
  apply (create_requires_all_fields john_doe_without_password "salt-1" []
           "63f9c6f9c6f9c6f9c6f9c6f9" []).
  right; right; left; reflexivity.
Defined.

(** ** Duplicate addresses *)

Lemma mongo_post_duplicate (n e p : string) (s : Bcrypt.salt)
  (oid : MongoService.ObjectId) (coll : list MongoService.document) :
  n <> "" -> e <> "" -> p <> "" ->
  e ∈ MongoService.email <$> coll ->
  MongoService.post_users
    {| name := Some n; email := Some e; password := Some p |} s oid coll
  = (MongoService.email_already_exists, coll).
Proof.
  intros Hn He Hp Hin. unfold MongoService.post_users.
  rewrite validateInput_next by assumption.
  unfold MongoService.create_user, MongoService.save; simpl.
  unfold MongoService.validators_pass.
  apply falsy_false in Hn, He. rewrite Hn, He; simpl.
  rewrite bool_decide_eq_true_2; [reflexivity|].
  apply list_elem_of_fmap in Hin as (d & -> & Hd).
  apply Exists_exists. exists d. split; [exact Hd | now right].
Qed.

(** C5, as stated: in the array variant a second create with the address of a
    stored account is not rejected as a conflict. *)
Lemma array_accepts_duplicate_address :
  ~ rejects_duplicate_address ArrayService.post_users
      (fmap ArrayService.email).
Proof.
  intros H.
  assert (Hin : "john@example.com" ∈ ArrayService.email <$> [john_stored])
    by (apply list_elem_of_singleton; reflexivity).
  apply (H "John Doe" "john@example.com" "password123" "salt-2") in Hin
    as [Herr _]; [| discriminate ..].
  vm_compute in Herr. discriminate Herr.
Qed.

(** C5, amended. In the document-store variant, whose schema declares the
    address unique, a create with all three fields and the address of a
    stored account is answered 409 "Email already exists", a conflict and no
    validation error, and the collection is unchanged.  The array variant
    has no uniqueness check: every create with all three fields is answered
    201 and appends the account, whatever addresses are stored. *)
Theorem duplicate_address_by_variant :
  rejects_duplicate_address
    (fun b (x : Bcrypt.salt * MongoService.ObjectId) =>
       MongoService.post_users b x.1 x.2)
    (fmap MongoService.email)
  /\
  (forall (n e p : string) (s : Bcrypt.salt) (users : list ArrayService.user),
      n <> "" -> e <> "" -> p <> "" ->
      ArrayService.post_users
        {| name := Some n; email := Some e; password := Some p |} s users
      = (json_response 201 (ArrayService.toJSON (created n e p s users)),
         users ++ [created n e p s users])).
Proof.
  split.
  - intros n e p [s oid] coll Hn He Hp Hin b. subst b. simpl.
    rewrite mongo_post_duplicate by assumption. split; reflexivity.
  - intros. now apply array_post_accepted.
Qed.

Lemma duplicate_address_by_variant_witness :
  (let b := john_doe in
   let coll :=
     [ {| MongoService._id := "63f9c6f9c6f9c6f9c6f9c6f9";
          MongoService.name := "Test User";
          MongoService.email := "john@example.com";
          MongoService.password := Bcrypt.hash "password" 12 "salt-0";
          MongoService.__v := 0 |} ] in
   error_of_response
     (MongoService.post_users b "salt-1" "63f9c6f9c6f9c6f9c6f9c6fa" coll).1
   = Some (ConflictError "Email already exists")
   /\ (MongoService.post_users b "salt-1" "63f9c6f9c6f9c6f9c6f9c6fa" coll).2
      = coll)
  /\
  (let john_again :=
     created "John Doe" "john@example.com" "password123" "salt-2"
       [john_stored] in
   ArrayService.post_users john_doe "salt-2" [john_stored]
   = (json_response 201 (ArrayService.toJSON john_again),
      [john_stored; john_again])).
Proof.
  split.
  - apply (proj1 duplicate_address_by_variant "John Doe" "john@example.com"
             "password123" ("salt-1", "63f9c6f9c6f9c6f9c6f9c6fa"));
      try discriminate.
    apply list_elem_of_singleton. reflexivity.
  - apply (proj2 duplicate_address_by_variant "John Doe" "john@example.com"
             "password123" "salt-2"); discriminate.
Defined.

(** ** Validation before an update *)

Lemma array_put_rejected (userId : ArrayService.number) (b : body)
  (s : Bcrypt.salt) (users : list ArrayService.user) :
  absent_or_empty (name b) \/ absent_or_empty (email b)
  \/ absent_or_empty (password b) ->
  ArrayService.put_users_id userId b s users
  = (ArrayService.missing_required_fields, users).
Proof.
  intros H. unfold ArrayService.put_users_id.
  destruct b as [[n|] [e|] [p|]]; simpl; try reflexivity.
  destruct H as [H|[H|H]]; apply not_true in H; simpl in H; rewrite H;
    rewrite ?orb_true_r; reflexivity.
Qed.

Lemma mongo_put_rejected (id : option MongoService.ObjectId) (b : body)
  (s : Bcrypt.salt) (coll : list MongoService.document) :
  absent_or_empty (name b) \/ absent_or_empty (email b)
  \/ absent_or_empty (password b) ->
  MongoService.put_users_id id b s coll
  = (MongoService.missing_required_fields, coll).
Proof.
  intros H. unfold MongoService.put_users_id.
  now rewrite validateInput_rejects.
Qed.

Lemma pg_put_no_fields (uid : Z) (b : body) (s : Bcrypt.salt)
  (table : list PgService.row) :
  absent_or_empty (name b) -> absent_or_empty (email b) ->
  absent_or_empty (password b) ->
  PgService.put_users_id (Some uid) b s table
  = (PgService.no_fields_to_update, table).
Proof.
  intros Hn He Hp. unfold PgService.put_users_id.
  apply not_true in Hn, He, Hp. now rewrite Hn, He, Hp.
Qed.

(** With a numeric id and one field present the relational handler runs its
    query: the answer is 404 or the updated row, never a validation error. *)
Lemma pg_put_partial_accepted (uid : Z) (b : body) (s : Bcrypt.salt)
  (table : list PgService.row) (msg : string) :
  present_non_empty (name b) \/ present_non_empty (email b)
  \/ present_non_empty (password b) ->
  error_of_response (PgService.put_users_id (Some uid) b s table).1
  <> Some (ValidationError msg).
Proof.
  intros H. unfold PgService.put_users_id.
  assert (Hall : not_ (name b) && not_ (email b) && not_ (password b) = false).
  { destruct H as [H|[H|H]]; apply not_false in H; rewrite H;
      rewrite ?andb_false_r; reflexivity. }
  rewrite Hall.
  destruct (PgService.update_users _ _ _ _ _) as [rows table'].
  destruct rows as [|r rows]; simpl; discriminate.
Qed.

(** C6, as stated: no single update policy holds of all update handlers.  On
    an update with no field the array variant answers "Missing required
    fields", not "No fields to update"; on an update with the name only the
    relational variant answers 404, not "Missing required fields". *)
Lemma update_policy_not_uniform : ~ uniform_update_policy.
Proof.
  intros [[Harray _] | [_ [Hpg _]]].
  - specialize (Harray 1 "salt-1" []). vm_compute in Harray. discriminate.
  - specialize
      (Hpg 1 {| name := Some "Jane Doe"; email := None; password := None |}
         "salt-1" [] (or_intror (or_introl eq_refl))).
    vm_compute in Hpg. discriminate.
Qed.

(** C6, amended. Each update handler applies one policy, and the variants
    differ.  The array and the document-store variants require all three
    fields: an update in which one is absent or empty is answered 400
    "Missing required fields" and changes nothing.  The relational variant
    answers 400 "Invalid user ID" when the id is no number; with a numeric id
    it answers 400 "No fields to update" when all three fields are absent or
    empty, and reports no validation error when one is present. *)
Theorem update_policy_by_variant (b : body) (s : Bcrypt.salt) :
  (absent_or_empty (name b) \/ absent_or_empty (email b)
   \/ absent_or_empty (password b) ->
   (forall userId users,
       ArrayService.put_users_id userId b s users
       = (error_response 400 "Missing required fields", users))
   /\ (forall id coll,
         MongoService.put_users_id id b s coll
         = (error_response 400 "Missing required fields", coll)))
  /\
  (forall table,
      PgService.put_users_id None b s table
      = (error_response 400 "Invalid user ID", table))
  /\
  (absent_or_empty (name b) /\ absent_or_empty (email b)
   /\ absent_or_empty (password b) ->
   forall uid table,
     PgService.put_users_id (Some uid) b s table
     = (error_response 400 "No fields to update", table))
  /\
  (present_non_empty (name b) \/ present_non_empty (email b)
   \/ present_non_empty (password b) ->
   forall uid table msg,
     error_of_response (PgService.put_users_id (Some uid) b s table).1
     <> Some (ValidationError msg)).
Proof.
  split; [|split; [|split]].
  - intros H. split; intros.
    + now apply array_put_rejected.
    + now apply mongo_put_rejected.
  - reflexivity.
  - intros (Hn & He & Hp) uid table. now apply pg_put_no_fields.
  - intros H uid table msg. now apply pg_put_partial_accepted.
Qed.

Lemma update_policy_by_variant_witness :
  ArrayService.put_users_id (Some 1) john_doe_without_password "salt-1" []
  = (error_response 400 "Missing required fields", [])
  /\
  PgService.put_users_id (Some 1)
    {| name := None; email := None; password := None |} "salt-1" []
  = (error_response 400 "No fields to update", []).
Proof.
  split.
  - apply (proj1 (update_policy_by_variant john_doe_without_password "salt-1")).
    right; right; left; reflexivity.
  - apply (proj1 (proj2 (proj2
             (update_policy_by_variant
                {| name := None; email := None; password := None |}
                "salt-1")))).
    repeat split; left; reflexivity.
Defined.

(** ** Unknown identifiers, deletion and reads *)







Lemma mongo_delete_unknown (oid : MongoService.ObjectId)
  (coll : list MongoService.document) :
  Forall (fun d => MongoService._id d <> oid) coll ->
  MongoService.delete_users_id (Some oid) coll
  = (MongoService.user_not_found, coll).
Proof.
  intros Hnone. unfold MongoService.delete_users_id; simpl.
  assert (Hfind : list_find (fun d => MongoService._id d = oid) coll = None)
    by now apply list_find_None.
  now rewrite Hfind.
Qed.

(** *** Reads and writes of the [users] object *)

Lemma map_set_own (k : string) (r : gmap string MapStore.value)
  (o : MapStore.object) :
  k <> "__proto__" \/ is_Some (MapStore.own o !! k) ->
  MapStore.set k r o
  = {| MapStore.own := <[k := r]> (MapStore.own o);
       MapStore.proto := MapStore.proto o |}.
Proof.
  intros H. unfold MapStore.set.
  rewrite bool_decide_eq_false_2; [reflexivity|].
  intros (Hk & Hown & _). destruct H as [H|[x H]]; congruence.
Qed.

Lemma map_get_own (k : string) (r : gmap string MapStore.value)
  (o : MapStore.object) :
  MapStore.own o !! k = Some r -> MapStore.get k o = MapStore.VObj r.
Proof. unfold MapStore.get. now intros ->. Qed.

Lemma map_get_undefined (k : string) (o : MapStore.object) :
  MapStore.get k o = MapStore.VUndefined -> MapStore.own o !! k = None.
Proof.
  unfold MapStore.get.
  destruct (MapStore.own o !! k); [discriminate | reflexivity].
Qed.

(** A key under which [users] reads [undefined] is not ['__proto__'] unless
    the installed prototype has an own property of that name. *)
Lemma map_get_undefined_proto (o : MapStore.object) :
  MapStore.get "__proto__" o = MapStore.VUndefined ->
  is_Some (MapStore.proto o ≫= (fun p => p !! "__proto__")).
Proof.
  unfold MapStore.get, MapStore.inherited.
  destruct (MapStore.own o !! "__proto__"); [discriminate|].
  destruct (MapStore.proto o ≫= _) as [v|]; [eauto|].
  rewrite decide_True by reflexivity.
  destruct (MapStore.proto o); discriminate.
Qed.

Lemma map_set_undefined (k : string) (r : gmap string MapStore.value)
  (o : MapStore.object) :
  MapStore.get k o = MapStore.VUndefined ->
  MapStore.set k r o
  = {| MapStore.own := <[k := r]> (MapStore.own o);
       MapStore.proto := MapStore.proto o |}.
Proof.
  intros H. unfold MapStore.set.
  rewrite bool_decide_eq_false_2; [reflexivity|].
  intros (-> & _ & Hp). apply map_get_undefined_proto in H as [v H].
  congruence.
Qed.




Lemma map_update_store (id : string) (user : gmap string MapStore.value)
  (st : MapStore.store) :
  id <> "__proto__" \/ is_Some (MapStore.own (MapStore.users st) !! id) ->
  MapStore.updateUser id user st
  = (user ∪ MapStore.spread (MapStore.findUserById id st),
     {| MapStore.users :=
          {| MapStore.own :=
               <[id := user ∪ MapStore.spread (MapStore.findUserById id st)]>
                 (MapStore.own (MapStore.users st));
             MapStore.proto := MapStore.proto (MapStore.users st) |};
        MapStore.userId := MapStore.userId st |}).
Proof.
  intros H. unfold MapStore.updateUser, MapStore.findUserById.
  now rewrite map_set_own.
Qed.

Lemma map_update_undefined (id : string) (user : gmap string MapStore.value)
  (st : MapStore.store) :
  MapStore.findUserById id st = MapStore.VUndefined ->
  MapStore.updateUser id user st
  = (user,
     {| MapStore.users :=
          {| MapStore.own := <[id := user]> (MapStore.own (MapStore.users st));
             MapStore.proto := MapStore.proto (MapStore.users st) |};
        MapStore.userId := MapStore.userId st |}).
Proof.
  intros H. unfold MapStore.updateUser, MapStore.findUserById in *.
  rewrite map_set_undefined by exact H. rewrite H.
  cbn [MapStore.spread]. now rewrite (right_id_L ∅ (∪)).
Qed.

Lemma map_find_other (id k : string) (user : gmap string MapStore.value)
  (st : MapStore.store) :
  id <> "__proto__" \/ is_Some (MapStore.own (MapStore.users st) !! id) ->
  k <> id ->
  MapStore.findUserById k (MapStore.updateUser id user st).2
  = MapStore.findUserById k st.
Proof.
  intros H Hk. rewrite map_update_store by exact H.
  unfold MapStore.findUserById, MapStore.get, MapStore.inherited.
  cbn [snd MapStore.users MapStore.own MapStore.proto].
  now rewrite lookup_insert_ne by congruence.
Qed.

Lemma map_find_updated (id : string) (user : gmap string MapStore.value)
  (st : MapStore.store) :
  id <> "__proto__" \/ is_Some (MapStore.own (MapStore.users st) !! id) ->
  MapStore.findUserById id (MapStore.updateUser id user st).2
  = MapStore.VObj (MapStore.updateUser id user st).1.
Proof.
  intros H. rewrite map_update_store by exact H.
  unfold MapStore.findUserById at 1. apply map_get_own.
  cbn [snd fst MapStore.users MapStore.own]. apply lookup_insert_eq.
Qed.

(** Inherited keys of the empty store: a method of [Object.prototype] is
    found whatever was deleted, and a record written under ['__proto__']
    becomes the prototype, which [deleteUser] does not undo and through
    which later reads and updates of other keys go. *)
Lemma map_inherited_keys :
  MapStore.findUserById "toString"
    (MapStore.deleteUser "toString" MapStore.empty)
  = MapStore.VBuiltin "toString"
  /\ MapStore.findUserById "__proto__"
       (MapStore.deleteUser "__proto__"
          (MapStore.updateUser "__proto__" jane_fields MapStore.empty).2)
     = MapStore.VObj jane_fields
  /\ MapStore.findUserById "name"
       (MapStore.updateUser "__proto__" jane_fields MapStore.empty).2
     = MapStore.VStr "Jane Doe"
  /\ (MapStore.updateUser "name" (john_with_id "1")
        (MapStore.updateUser "__proto__" jane_fields MapStore.empty).2).1
     !! "0" = Some (MapStore.VStr "J").
Proof. repeat split; vm_compute; reflexivity. Qed.




(** ** Updates in place *)

(** A 200 answer of the array update: the first account with the requested
    identifier is replaced, at its position, by one with the same
    identifier. *)
Lemma array_put_updated (userId : ArrayService.number) (b : body)
  (s : Bcrypt.salt) (users users' : list ArrayService.user) (r : response) :
  ArrayService.put_users_id userId b s users = (r, users') ->
  status r = 200%nat ->
  exists (i : nat) (u u' : ArrayService.user),
    users !! i = Some u
    /\ ArrayService.id_is userId u
    /\ ArrayService.id u' = ArrayService.id u
    /\ r = json_response 200 (ArrayService.toJSON u')
    /\ users' = <[i := u']> users.
Proof.
  unfold ArrayService.put_users_id.
  destruct (name b) as [n|], (email b) as [e|], (password b) as [p|];
    try (intros [= <- <-]; discriminate).
  destruct (_ || _); [intros [= <- <-]; discriminate|].
  destruct userId as [uid|]; [|intros [= <- <-]; discriminate].
  unfold ArrayService.findIndex.
  destruct (list_find _ users) as [[i u]|] eqn:Hfind; simpl;
    [|intros [= <- <-]; discriminate].
  intros [= <- <-] _.
  apply list_find_Some in Hfind as (Hi & Hid & _).
  exists i, u,
    {| ArrayService.id := uid; ArrayService.name := n;
       ArrayService.email := e;
       ArrayService.password := Bcrypt.hash p ArrayService.saltRounds s |}.
  repeat split; [exact Hi | exact Hid |].
  unfold ArrayService.id_is in Hid. simpl. congruence.
Qed.

(** *** The array update across its await *)

(** What [lookup] found: the body carries three non-empty fields and the
    index is that of the first account with the requested identifier. *)
Lemma array_lookup_found (userId : ArrayService.number) (b : body)
  (users : list ArrayService.user) (p : ArrayAwait.pending) :
  ArrayAwait.lookup userId b users = inr p ->
  userId = Some (ArrayAwait.userId p)
  /\ b = {| name := Some (ArrayAwait.name p);
            email := Some (ArrayAwait.email p);
            password := Some (ArrayAwait.password p) |}
  /\ falsy (ArrayAwait.name p) || falsy (ArrayAwait.email p)
     || falsy (ArrayAwait.password p) = false
  /\ exists u : ArrayService.user,
      list_find (ArrayService.id_is userId) users
      = Some (ArrayAwait.userIndex p, u).
Proof.
  unfold ArrayAwait.lookup. destruct b as [[n|] [e|] [pw|]]; simpl;
    try discriminate.
  destruct (_ || _) eqn:Hf; [discriminate|].
  destruct userId as [uid|]; [|discriminate].
  unfold ArrayService.findIndex.
  destruct (list_find _ users) as [[i u]|] eqn:Hfind; simpl; [|discriminate].
  intros [= <-]. simpl. repeat split; [exact Hf|]. now exists u.
Qed.

Lemma array_lookup_refused (userId : ArrayService.number) (b : body)
  (s : Bcrypt.salt) (users : list ArrayService.user) (r : response) :
  ArrayAwait.lookup userId b users = inl r ->
  ArrayService.put_users_id userId b s users = (r, users).
Proof.
  unfold ArrayAwait.lookup, ArrayService.put_users_id.
  destruct (name b) as [n|], (email b) as [e|], (password b) as [pw|];
    try (now intros [= <-]).
  destruct (_ || _); [now intros [= <-]|].
  destruct userId as [uid|]; [|now intros [= <-]].
  destruct (ArrayService.findIndex (Some uid) users) as [i|];
    [discriminate | now intros [= <-]].
Qed.

(** Served with no request during the await, [lookup] and [write] are
    [ArrayService.put_users_id]. *)
Lemma array_put_await (userId : ArrayService.number) (b : body)
  (s : Bcrypt.salt) (users : list ArrayService.user)
  (p : ArrayAwait.pending) :
  ArrayAwait.lookup userId b users = inr p ->
  ArrayAwait.write p s (Some <$> users)
  = ((ArrayService.put_users_id userId b s users).1,
     Some <$> (ArrayService.put_users_id userId b s users).2).
Proof.
  unfold ArrayAwait.lookup, ArrayService.put_users_id.
  destruct (name b) as [n|], (email b) as [e|], (password b) as [pw|];
    try discriminate.
  destruct (_ || _); [discriminate|].
  destruct userId as [uid|]; [|discriminate].
  unfold ArrayService.findIndex.
  destruct (list_find _ users) as [[i u]|] eqn:Hfind; simpl; [|discriminate].
  intros [= <-]. unfold ArrayAwait.write, ArrayAwait.assign. simpl.
  apply list_find_Some in Hfind as (Hi & _ & _).
  apply lookup_lt_Some in Hi.
  rewrite length_fmap. rewrite decide_True by exact Hi.
  now rewrite list_fmap_insert.
Qed.

Lemma array_assign_held (i : nat) (x v : ArrayService.user)
  (users : list (option ArrayService.user)) :
  users !! i = Some (Some v) ->
  ArrayAwait.assign i x users = <[i := Some x]> users
  /\ ArrayAwait.assign i x users !! i = Some (Some x).
Proof.
  intros Hi. apply lookup_lt_Some in Hi as Hlt.
  unfold ArrayAwait.assign. rewrite decide_True by exact Hlt.
  split; [reflexivity|]. now apply list_lookup_insert_eq.
Qed.

(** A DELETE served during the await of an update: the update of account 1
    found index 0, account 1 is deleted, and the write replaces account 2,
    now at index 0, by an account with identifier 1; on a store that held
    account 1 alone the write puts the deleted account back. *)
Lemma array_update_after_delete :
  exists p : ArrayAwait.pending,
    ArrayAwait.lookup (Some 1) jane_doe [john_stored; jane_stored] = inr p
    /\ ArrayService.delete_users_id (Some 1) [john_stored; jane_stored]
       = ({| status := 204; payload := None |}, [jane_stored])
    /\ ArrayService.id jane_stored = 2
    /\ (exists u' : ArrayService.user,
          (ArrayAwait.write p "salt-3" [Some jane_stored]).2 = [Some u']
          /\ ArrayService.id u' = 1)
    /\ ArrayAwait.lookup (Some 1) jane_doe [john_stored] = inr p
    /\ length (ArrayAwait.write p "salt-3" []).2 = 1%nat.
Proof.
  eexists. split; [reflexivity|]. split; [reflexivity|].
  split; [reflexivity|]. split; [|split; reflexivity].
  eexists. split; reflexivity.
Qed.

(** C8, as stated: an update of a stored account does not always keep its
    identifier.  In the map store [updateUser] spreads the argument over the
    stored record, so an argument that carries an [id] of its own (a stored
    user, say) replaces the stored one. *)
Lemma update_can_replace_identifier :
  ~ (forall (id : string) (user old : gmap string MapStore.value)
            (st : MapStore.store),
        MapStore.own (MapStore.users st) !! id = Some old ->
        (MapStore.updateUser id user st).1 !! "id" = old !! "id").
Proof.
  intros H.
  specialize (H "1" (john_with_id "2") (john_with_id "1")
                (MapStore.updateUser "1" (john_with_id "1") MapStore.empty).2
                eq_refl).
  vm_compute in H. discriminate H.
Qed.

(** C8, amended.  Array variant: an update that passes validation has found
    the index of the first account with the requested identifier; its write,
    on any array that still holds an account with that identifier at that
    index, replaces it in place by an account with the same identifier,
    which is the one serialised with status 200; served with no request
    during the await, this is [ArrayService.put_users_id].  Map store:
    [updateUser] on a stored key replaces the record in place by the
    argument spread over it and changes no other read; the [id] property
    stays the stored one exactly when the argument has none of its own. *)
Theorem update_keeps_identifier :
  (forall (userId : ArrayService.number) (b : body)
          (users : list ArrayService.user) (p : ArrayAwait.pending),
      ArrayAwait.lookup userId b users = inr p ->
      userId = Some (ArrayAwait.userId p)
      /\ (exists u : ArrayService.user,
            users !! ArrayAwait.userIndex p = Some u
            /\ ArrayService.id u = ArrayAwait.userId p)
      /\ (forall (s : Bcrypt.salt) (now : list (option ArrayService.user))
                 (v : ArrayService.user),
            now !! ArrayAwait.userIndex p = Some (Some v) ->
            ArrayService.id v = ArrayAwait.userId p ->
            exists u' : ArrayService.user,
              ArrayAwait.write p s now
              = (json_response 200 (ArrayService.toJSON u'),
                 <[ArrayAwait.userIndex p := Some u']> now)
              /\ (ArrayAwait.write p s now).2 !! ArrayAwait.userIndex p
                 = Some (Some u')
              /\ ArrayService.id u' = ArrayService.id v)
      /\ (forall s : Bcrypt.salt,
            ArrayAwait.write p s (Some <$> users)
            = ((ArrayService.put_users_id userId b s users).1,
               Some <$> (ArrayService.put_users_id userId b s users).2)))
  /\
  (forall (id : string) (user old : gmap string MapStore.value)
          (st : MapStore.store),
      MapStore.own (MapStore.users st) !! id = Some old ->
      exists (updatedUser : gmap string MapStore.value)
             (st' : MapStore.store),
        MapStore.updateUser id user st = (updatedUser, st')
        /\ updatedUser = user ∪ old
        /\ MapStore.own (MapStore.users st')
           = <[id := updatedUser]> (MapStore.own (MapStore.users st))
        /\ MapStore.proto (MapStore.users st')
           = MapStore.proto (MapStore.users st)
        /\ MapStore.findUserById id st' = MapStore.VObj updatedUser
        /\ (user !! "id" = None -> updatedUser !! "id" = old !! "id")
        /\ (forall v : MapStore.value,
              user !! "id" = Some v -> updatedUser !! "id" = Some v)
        /\ forall k : string,
            k <> id ->
            MapStore.findUserById k st' = MapStore.findUserById k st).
Proof.
  split.
  - intros userId b users p Hlookup.
    destruct (array_lookup_found _ _ _ _ Hlookup)
      as (Huid & _ & _ & u & Hfind).
    split; [exact Huid|]. split; [|split].
    + apply list_find_Some in Hfind as (Hi & Hid & _).
      exists u. split; [exact Hi|].
      rewrite Huid in Hid. unfold ArrayService.id_is in Hid. congruence.
    + intros s now v Hv Hid.
      exists {| ArrayService.id := ArrayAwait.userId p;
                ArrayService.name := ArrayAwait.name p;
                ArrayService.email := ArrayAwait.email p;
                ArrayService.password :=
                  Bcrypt.hash (ArrayAwait.password p)
                    ArrayService.saltRounds s |}.
      unfold ArrayAwait.write. cbn [snd].
      destruct (array_assign_held (ArrayAwait.userIndex p)
                  {| ArrayService.id := ArrayAwait.userId p;
                     ArrayService.name := ArrayAwait.name p;
                     ArrayService.email := ArrayAwait.email p;
                     ArrayService.password :=
                       Bcrypt.hash (ArrayAwait.password p)
                         ArrayService.saltRounds s |} v now Hv)
        as [Heq Hat].
      cbv zeta. rewrite Heq in *.
      split; [reflexivity|]. split; [exact Hat|]. now rewrite Hid.
    + intros s. now apply array_put_await.
  - intros id user old st Hold.
    assert (Hfind : MapStore.findUserById id st = MapStore.VObj old)
      by now apply map_get_own.
    exists (MapStore.updateUser id user st).1,
      (MapStore.updateUser id user st).2.
    split; [now destruct (MapStore.updateUser id user st)|].
    assert (Hstored : id <> "__proto__"
                      \/ is_Some (MapStore.own (MapStore.users st) !! id))
      by (right; eauto).
    rewrite (map_find_updated id user st Hstored).
    assert (Hother : forall k : string,
               k <> id ->
               MapStore.findUserById k (MapStore.updateUser id user st).2
               = MapStore.findUserById k st)
      by (intros k Hk; now apply map_find_other).
    rewrite (map_update_store id user st Hstored) in *.
    rewrite Hfind in *. cbn [fst snd MapStore.users MapStore.own
                             MapStore.proto MapStore.spread] in *.
    repeat split; try assumption.
    + intros Hnone. now rewrite lookup_union_r.
    + intros v Hv. now apply lookup_union_Some_l.
Qed.

Lemma update_keeps_identifier_witness :
  (exists u' : ArrayService.user,
      ArrayAwait.write
        {| ArrayAwait.userId := 1; ArrayAwait.name := "Jane Doe";
           ArrayAwait.email := "jane@example.com";
           ArrayAwait.password := "newpassword";
           ArrayAwait.userIndex := 0 |} "salt-2" [Some john_stored]
      = (json_response 200 (ArrayService.toJSON u'), [Some u'])
      /\ ArrayService.id u' = ArrayService.id john_stored)
  /\
  (exists (updatedUser : gmap string MapStore.value),
      MapStore.findUserById "1"
        (MapStore.updateUser "1" jane_fields
           (MapStore.updateUser "1" (john_with_id "1") MapStore.empty).2).2
      = MapStore.VObj updatedUser
      /\ updatedUser !! "id" = Some (MapStore.VStr "1")).
Proof.
  split.
  - destruct (proj1 update_keeps_identifier (Some 1) jane_doe [john_stored]
                {| ArrayAwait.userId := 1; ArrayAwait.name := "Jane Doe";
                   ArrayAwait.email := "jane@example.com";
                   ArrayAwait.password := "newpassword";
                   ArrayAwait.userIndex := 0 |} eq_refl)
      as (_ & _ & Hwrite & _).
    destruct (Hwrite "salt-2" [Some john_stored] john_stored
                eq_refl eq_refl) as (u' & Hw & _ & Hid).
    exists u'. split; [exact Hw | exact Hid].
  - destruct (proj2 update_keeps_identifier "1" jane_fields
                (john_with_id "1")
                (MapStore.updateUser "1" (john_with_id "1") MapStore.empty).2
                eq_refl)
      as (updatedUser & st' & Hupd & _ & _ & _ & Hfind & Hid & _).
    exists updatedUser. rewrite Hupd. split; [exact Hfind|].
    now rewrite Hid.
Defined.

(** ** Identifiers of the array variant *)

(** C9. In the array variant a successful create appends an account whose
    identifier is the number of stored accounts plus one; after two creates,
    a delete of the first account and a third create, the store holds two
    accounts, at different positions, with the same identifier. *)
Theorem array_create_reuses_identifier :
  (forall (b : body) (s : Bcrypt.salt) (users users' : list ArrayService.user)
          (r : response),
      ArrayService.post_users b s users = (r, users') ->
      status r = 201%nat ->
      exists u : ArrayService.user,
        users' = users ++ [u]
        /\ ArrayService.id u = Z.of_nat (length users) + 1
        /\ r = json_response 201 (ArrayService.toJSON u))
  /\
  (exists (u v : ArrayService.user),
      ArrayService.run reuse_scenario [] = [u; v]
      /\ ArrayService.id u = ArrayService.id v
      /\ u <> v).
Proof.
  split.
  - intros b s users users' r Hpost Hok.
    destruct (array_post_cases b s users)
      as [[_ Hr]|(n & e & p & _ & _ & _ & _ & Hr)];
      rewrite Hr in Hpost; injection Hpost as <- <-.
    + discriminate Hok.
    + exists (created n e p s users). repeat split.
  - do 2 eexists. split; [reflexivity|]. split; [reflexivity | discriminate].
Qed.

Lemma array_create_reuses_identifier_witness :
  exists u : ArrayService.user,
    (ArrayService.post_users john_doe "salt-1" []).2 = [] ++ [u]
    /\ ArrayService.id u = Z.of_nat (length (@nil ArrayService.user)) + 1
    /\ (ArrayService.post_users john_doe "salt-1" []).1
       = json_response 201 (ArrayService.toJSON u).
Proof.
  apply (proj1 array_create_reuses_identifier john_doe "salt-1" []);
    reflexivity.
Defined.

(** With a reused identifier a read after a successful delete still finds an
    account: the scenario above, then a delete of identifier 2 and a read of
    identifier 2. *)
Lemma array_read_after_delete_of_reused_identifier :
  let users := ArrayService.run reuse_scenario [] in
  status (ArrayService.delete_users_id (Some 2) users).1 = 204%nat
  /\ status
       (ArrayService.get_users_id (Some 2)
          (ArrayService.delete_users_id (Some 2) users).2).1 = 200%nat.
Proof. split; reflexivity. Qed.

(** ** The map store *)

(** With no global [name], as under Node, [addUser] throws and writes
    nothing. *)
Lemma map_addUser_throws (globals user : gmap string MapStore.value)
  (st : MapStore.store) :
  globals !! "name" = None ->
  MapStore.addUser globals user st = inl (MapStore.ReferenceError "name").
Proof. intros H. unfold MapStore.addUser. now rewrite H. Qed.

(** C10, as stated: under a key that reads [undefined] the record
    [updateUser] returns is not always without identifier, since an [id] of
    the argument is copied; and under the key ['__proto__'] no own property
    is stored. *)
Lemma map_update_record_can_carry_id :
  ~ (forall (id : string) (user : gmap string MapStore.value)
            (st : MapStore.store),
        MapStore.findUserById id st = MapStore.VUndefined ->
        (MapStore.updateUser id user st).1 !! "id" = None)
  /\
  ~ (forall (id : string) (user : gmap string MapStore.value)
            (st : MapStore.store),
        MapStore.own (MapStore.users (MapStore.updateUser id user st).2) !! id
        = Some (MapStore.updateUser id user st).1).
Proof.
  split.
  - intros H. specialize (H "2" (john_with_id "1") MapStore.empty eq_refl).
    vm_compute in H. discriminate H.
  - intros H. specialize (H "__proto__" jane_fields MapStore.empty).
    vm_compute in H. discriminate H.
Qed.

(** C10, amended. In the map store [updateUser] never fails: for every key
    it returns the argument spread over what [users] reads under the key,
    and for every key but ['__proto__'] it stores that record as an own
    property of [users], where [findUserById] finds it.  Under a key that
    reads [undefined] the record is the argument itself, and has an [id]
    exactly when the argument carries one. *)
Theorem map_updateUser_total (id : string) (user : gmap string MapStore.value)
  (st : MapStore.store) :
  exists (updatedUser : gmap string MapStore.value) (st' : MapStore.store),
    MapStore.updateUser id user st = (updatedUser, st')
    /\ updatedUser = user ∪ MapStore.spread (MapStore.findUserById id st)
    /\ (id <> "__proto__" ->
        MapStore.own (MapStore.users st') !! id = Some updatedUser
        /\ MapStore.findUserById id st' = MapStore.VObj updatedUser)
    /\ (MapStore.findUserById id st = MapStore.VUndefined ->
        updatedUser = user
        /\ MapStore.own (MapStore.users st') !! id = Some updatedUser
        /\ (updatedUser !! "id" = None <-> user !! "id" = None)).
Proof.
  exists (MapStore.updateUser id user st).1, (MapStore.updateUser id user st).2.
  split; [now destruct (MapStore.updateUser id user st)|].
  split; [reflexivity|]. split.
  - intros Hid. split.
    + rewrite map_update_store by now left.
      cbn [snd fst MapStore.users MapStore.own]. apply lookup_insert_eq.
    + apply map_find_updated. now left.
  - intros Hnone. rewrite (map_update_undefined id user st Hnone).
    cbn [fst snd MapStore.users MapStore.own].
    split; [reflexivity|]. split; [apply lookup_insert_eq | reflexivity].
Qed.

Lemma map_updateUser_total_witness :
  exists (updatedUser : gmap string MapStore.value) (st' : MapStore.store),
    MapStore.updateUser "999" jane_fields MapStore.empty = (updatedUser, st')
    /\ MapStore.findUserById "999" st' = MapStore.VObj updatedUser
    /\ updatedUser = jane_fields
    /\ updatedUser !! "id" = None.
Proof.
  destruct (map_updateUser_total "999" jane_fields MapStore.empty)
    as (updatedUser & st' & Hupd & _ & Hstored & Habsent).
  exists updatedUser, st'. split; [exact Hupd|].
  destruct Hstored as [_ Hfind]; [discriminate|].
  destruct Habsent as (Hrec & _ & Hid); [reflexivity|].
  split; [exact Hfind|]. split; [exact Hrec|].
  apply Hid. reflexivity.
Defined.

(** * Further properties of the handlers *)

(** ** The in-memory array variant *)

(** Every update is rejected for a missing field, answered not found, or
    replaces the first account that has the requested identifier. *)
Lemma array_put_cases (userId : ArrayService.number) (b : body)
  (s : Bcrypt.salt) (users : list ArrayService.user) :
  ArrayService.put_users_id userId b s users
  = (ArrayService.missing_required_fields, users)
  \/ ArrayService.put_users_id userId b s users
     = (ArrayService.user_not_found, users)
  \/ exists (uid : Z) (i : nat) (u : ArrayService.user) (n e p : string),
      userId = Some uid
      /\ list_find (ArrayService.id_is (Some uid)) users = Some (i, u)
      /\ let u' := {| ArrayService.id := uid; ArrayService.name := n;
                      ArrayService.email := e;
                      ArrayService.password :=
                        Bcrypt.hash p ArrayService.saltRounds s |} in
         ArrayService.put_users_id userId b s users
         = (json_response 200 (ArrayService.toJSON u'), <[i := u']> users).
Proof.
  unfold ArrayService.put_users_id.
  destruct (name b) as [n|], (email b) as [e|], (password b) as [p|];
    auto.
  destruct (_ || _); auto.
  destruct userId as [uid|]; auto.
  unfold ArrayService.findIndex.
  destruct (list_find _ users) as [[i u]|] eqn:Hfind; simpl; auto.
  right; right. exists uid, i, u, n, e, p. auto.
Qed.

(** X1. In the array variant a request answered with an error status (400
    or above) leaves the store as it was. *)
Theorem array_error_leaves_store (r : ArrayService.request)
  (users : list ArrayService.user) :
  (400 <= status (ArrayService.handle r users).1)%nat ->
  (ArrayService.handle r users).2 = users.
Proof.
  destruct r as [b s| |userId|userId b s|userId]; simpl.
  - destruct (array_post_cases b s users)
      as [[_ ->]|(n & e & p & _ & _ & _ & _ & ->)]; simpl; [reflexivity|].
    intros H. exfalso. revert H. apply Nat.lt_nge. vm_compute. lia.
  - reflexivity.
  - intros _. unfold ArrayService.get_users_id.
    now destruct (ArrayService.find userId users).
  - destruct (array_put_cases userId b s users)
      as [->|[->|(uid & i & u & n & e & p & _ & _ & ->)]];
      simpl; [reflexivity..|].
    intros H. exfalso. revert H. apply Nat.lt_nge. vm_compute. lia.
  - unfold ArrayService.delete_users_id.
    destruct (ArrayService.findIndex userId users); simpl; [|reflexivity].
    intros H. exfalso. revert H. apply Nat.lt_nge. vm_compute. lia.
Qed.

Lemma array_error_leaves_store_witness :
  (ArrayService.handle
     (ArrayService.PUT_users_id (Some 2) jane_doe "salt-2") [john_stored]).2
  = [john_stored].
Proof.
  apply (array_error_leaves_store
           (ArrayService.PUT_users_id (Some 2) jane_doe "salt-2")
           [john_stored]).
  vm_compute. lia.
Defined.

Lemma array_post_ids (b : body) (s : Bcrypt.salt)
  (users : list ArrayService.user) :
  (ArrayService.post_users b s users).2 = users
  \/ exists u : ArrayService.user,
      (ArrayService.post_users b s users).2 = users ++ [u]
      /\ ArrayService.id u = Z.of_nat (Datatypes.S (length users)).
Proof.
  destruct (array_post_cases b s users)
    as [[_ ->]|(n & e & p & _ & _ & _ & _ & ->)]; [now left|].
  right. exists (created n e p s users). split; [reflexivity|].
  simpl. lia.
Qed.

(** An update, whatever its answer, leaves the identifiers where they are. *)
Lemma array_put_ids (userId : ArrayService.number) (b : body)
  (s : Bcrypt.salt) (users : list ArrayService.user) :
  ArrayService.id <$> (ArrayService.put_users_id userId b s users).2
  = ArrayService.id <$> users.
Proof.
  destruct (array_put_cases userId b s users)
    as [->|[->|(uid & i & u & n & e & p & _ & Hfind & ->)]];
    [reflexivity..|].
  apply list_find_Some in Hfind as (Hi & Hid & _).
  simpl. rewrite list_fmap_insert. simpl. apply list_insert_id.
  rewrite list_lookup_fmap, Hi. simpl.
  unfold ArrayService.id_is in Hid. congruence.
Qed.

Lemma numbered_step (r : ArrayService.request)
  (users : list ArrayService.user) :
  no_delete r -> numbered users -> numbered (ArrayService.handle r users).2.
Proof.
  unfold numbered. intros Hr Hnum.
  destruct r as [b s| |userId|userId b s|userId]; simpl.
  - destruct (array_post_ids b s users) as [->|(u & -> & Hu)]; [exact Hnum|].
    rewrite fmap_app, length_app, Hnum. simpl.
    rewrite Nat.add_1_r, seq_S, fmap_app. simpl. now rewrite Hu.
  - exact Hnum.
  - unfold ArrayService.get_users_id.
    now destruct (ArrayService.find userId users).
  - rewrite array_put_ids.
    assert (Hlen : length (ArrayService.put_users_id userId b s users).2
                   = length users).
    { rewrite <- (length_fmap ArrayService.id), array_put_ids.
      apply length_fmap. }
    now rewrite Hlen.
  - destruct Hr.
Qed.

Lemma numbered_run (rs : list ArrayService.request)
  (users : list ArrayService.user) :
  Forall no_delete rs -> numbered users -> numbered (ArrayService.run rs users).
Proof.
  intros Hrs. revert users.
  induction Hrs as [|r rs Hr _ IH]; intros users Hnum; [exact Hnum|].
  unfold ArrayService.run; simpl. apply IH. now apply numbered_step.
Qed.

Lemma numbered_NoDup (users : list ArrayService.user) :
  numbered users -> NoDup (ArrayService.id <$> users).
Proof.
  unfold numbered. intros ->.
  apply NoDup_fmap_2; [apply Nat2Z.inj'|apply NoDup_seq].
Qed.

(** X2. In the array variant, as long as no account is deleted the stored
    identifiers are 1, 2, ..., n in order: after any sequence of create,
    read, list and update requests on the empty store they are pairwise
    distinct. *)
Theorem array_ids_without_delete (rs : list ArrayService.request) :
  Forall no_delete rs ->
  ArrayService.id <$> ArrayService.run rs []
  = Z.of_nat <$> seq 1 (length (ArrayService.run rs []))
  /\ NoDup (ArrayService.id <$> ArrayService.run rs []).
Proof.
  intros Hrs.
  assert (Hnum : numbered (ArrayService.run rs []))
    by (apply numbered_run; [exact Hrs | reflexivity]).
  split; [exact Hnum | now apply numbered_NoDup].
Qed.

Lemma array_ids_without_delete_witness :
  let rs := [ ArrayService.POST_users john_doe "salt-1";
              ArrayService.PUT_users_id (Some 1) jane_doe "salt-2";
              ArrayService.POST_users john_doe "salt-3" ] in
  ArrayService.id <$> ArrayService.run rs []
  = Z.of_nat <$> seq 1 (length (ArrayService.run rs []))
  /\ NoDup (ArrayService.id <$> ArrayService.run rs []).
Proof.
  apply array_ids_without_delete. repeat constructor.
Defined.



(** X4. In the array variant, when at the write of an update the first
    account with the requested identifier is still at the index the lookup
    found (as it is with no request during the await), the update is
    answered 200 and a read of that identifier right after is answered 200
    with the same body, also when several stored accounts share the
    identifier. *)
Theorem array_read_after_update (userId : ArrayService.number) (b : body)
  (s : Bcrypt.salt) (users now : list ArrayService.user)
  (p : ArrayAwait.pending) (v : ArrayService.user) :
  ArrayAwait.lookup userId b users = inr p ->
  list_find (ArrayService.id_is userId) now
  = Some (ArrayAwait.userIndex p, v) ->
  exists (j : json) (now' : list ArrayService.user),
    ArrayAwait.write p s (Some <$> now) = (json_response 200 j, Some <$> now')
    /\ ArrayService.get_users_id userId now' = (json_response 200 j, now').
Proof.
  intros Hlookup Hfind.
  destruct (array_lookup_found _ _ _ _ Hlookup) as (Huid & _ & _ & _).
  apply list_find_Some in Hfind as (Hi & _ & Hfirst).
  apply lookup_lt_Some in Hi as Hlt.
  pose (u' := {| ArrayService.id := ArrayAwait.userId p;
                 ArrayService.name := ArrayAwait.name p;
                 ArrayService.email := ArrayAwait.email p;
                 ArrayService.password :=
                   Bcrypt.hash (ArrayAwait.password p)
                     ArrayService.saltRounds s |}).
  exists (ArrayService.toJSON u'), (<[ArrayAwait.userIndex p := u']> now).
  split.
  - unfold ArrayAwait.write, ArrayAwait.assign.
    rewrite length_fmap, decide_True by exact Hlt.
    now rewrite list_fmap_insert.
  - unfold ArrayService.get_users_id, ArrayService.find.
    assert (Hnew : list_find (ArrayService.id_is userId)
                     (<[ArrayAwait.userIndex p := u']> now)
                   = Some (ArrayAwait.userIndex p, u')).
    { apply list_find_Some. split; [|split].
      - now apply list_lookup_insert_eq.
      - rewrite Huid. reflexivity.
      - intros j y Hj Hjlt. rewrite list_lookup_insert_ne in Hj by lia.
        now apply (Hfirst j). }
    now rewrite Hnew.
Qed.

Lemma array_read_after_update_witness :
  exists (j : json) (now' : list ArrayService.user),
    ArrayAwait.write
      {| ArrayAwait.userId := 1; ArrayAwait.name := "Jane Doe";
         ArrayAwait.email := "jane@example.com";
         ArrayAwait.password := "newpassword";
         ArrayAwait.userIndex := 0 |} "salt-2"
      (Some <$> [john_stored; jane_stored])
    = (json_response 200 j, Some <$> now')
    /\ ArrayService.get_users_id (Some 1) now' = (json_response 200 j, now').
Proof.
  apply (array_read_after_update (Some 1) jane_doe "salt-2"
           [john_stored; jane_stored] [john_stored; jane_stored]
           {| ArrayAwait.userId := 1; ArrayAwait.name := "Jane Doe";
              ArrayAwait.email := "jane@example.com";
              ArrayAwait.password := "newpassword";
              ArrayAwait.userIndex := 0 |} john_stored);
    reflexivity.
Defined.

(** X5. In the array variant the write of an update touches one position of
    the array as it is after the await, the index the lookup found, which
    then holds an account with the requested identifier.  Every other
    position keeps what it held; the array keeps its length when it still
    has that index and otherwise grows up to it, the positions in between
    left empty.  An update refused before the await writes nothing. *)
Theorem array_update_frame (p : ArrayAwait.pending) (s : Bcrypt.salt)
  (now : list (option ArrayService.user)) :
  let now' := (ArrayAwait.write p s now).2 in
  length now' = max (length now) (Datatypes.S (ArrayAwait.userIndex p))
  /\ (exists u' : ArrayService.user,
        now' !! ArrayAwait.userIndex p = Some (Some u')
        /\ ArrayService.id u' = ArrayAwait.userId p)
  /\ (forall j : nat,
        j <> ArrayAwait.userIndex p -> (j < length now)%nat ->
        now' !! j = now !! j)
  /\ (forall j : nat,
        (length now <= j < ArrayAwait.userIndex p)%nat ->
        now' !! j = Some None)
  /\ (forall (userId : ArrayService.number) (b : body)
             (users : list ArrayService.user) (r : response),
        ArrayAwait.lookup userId b users = inl r ->
        ArrayService.put_users_id userId b s users = (r, users)).
Proof.
  cbv zeta. unfold ArrayAwait.write, ArrayAwait.assign. cbn [snd].
  destruct (decide (ArrayAwait.userIndex p < length now)%nat) as [Hlt|Hge].
  - split; [rewrite length_insert; lia|].
    split; [eexists; split;
            [now apply list_lookup_insert_eq | reflexivity]|].
    split; [intros j Hj _; now apply list_lookup_insert_ne|].
    split; [intros j Hj; lia|].
    intros userId b users r. apply array_lookup_refused.
  - split; [rewrite !length_app, length_replicate; simpl; lia|].
    split; [|split; [|split]].
    + eexists. split.
      * rewrite lookup_app_r by lia.
        rewrite lookup_app_r by (rewrite length_replicate; lia).
        rewrite length_replicate.
        now replace (ArrayAwait.userIndex p - length now
                     - (ArrayAwait.userIndex p - length now))%nat with 0%nat
          by lia.
      * reflexivity.
    + intros j _ Hj. now apply lookup_app_l.
    + intros j Hj. rewrite lookup_app_r by lia.
      rewrite lookup_app_l by (rewrite length_replicate; lia).
      apply lookup_replicate_2. lia.
    + intros userId b users r. apply array_lookup_refused.
Qed.

Lemma array_update_frame_witness :
  (ArrayAwait.write
     {| ArrayAwait.userId := 1; ArrayAwait.name := "Jane Doe";
        ArrayAwait.email := "jane@example.com";
        ArrayAwait.password := "newpassword";
        ArrayAwait.userIndex := 0 |} "salt-2"
     [Some john_stored; Some jane_stored]).2 !! 1%nat
  = Some (Some jane_stored).
Proof.
  apply (array_update_frame
           {| ArrayAwait.userId := 1; ArrayAwait.name := "Jane Doe";
              ArrayAwait.email := "jane@example.com";
              ArrayAwait.password := "newpassword";
              ArrayAwait.userIndex := 0 |} "salt-2"
           [Some john_stored; Some jane_stored]);
    [discriminate | simpl; lia].
Defined.

(** X6. In the array variant a delete, whatever its answer, keeps every
    account whose identifier is not the requested one, in order. *)
Theorem array_delete_keeps_others (uid : Z)
  (users : list ArrayService.user) :
  filter (fun u => ArrayService.id u <> uid)
    (ArrayService.delete_users_id (Some uid) users).2
  = filter (fun u => ArrayService.id u <> uid) users.
Proof.
  unfold ArrayService.delete_users_id, ArrayService.findIndex.
  destruct (list_find _ users) as [[i u]|] eqn:Hfind; simpl; [|reflexivity].
  apply list_find_Some in Hfind as (Hi & Hid & _).
  rewrite delete_take_drop.
  rewrite <- (take_drop_middle users i u Hi) at 3.
  rewrite !filter_app, filter_cons_False; [reflexivity|].
  unfold ArrayService.id_is in Hid. intros Hne. apply Hne. congruence.
Qed.



(** ** The map store *)

(** X9. In the map store a second [updateUser] under the same key, other
    than ['__proto__'], spreads its argument over the record the first one
    stored, so that a property only the first argument had survives; and
    repeating a call changes neither the record nor the store. *)
Theorem map_update_twice (id : string) (u1 u2 : gmap string MapStore.value)
  (st : MapStore.store) :
  id <> "__proto__" ->
  (MapStore.updateUser id u2 (MapStore.updateUser id u1 st).2).1
  = u2 ∪ (MapStore.updateUser id u1 st).1
  /\ (forall k : string,
        u2 !! k = None ->
        (MapStore.updateUser id u2 (MapStore.updateUser id u1 st).2).1 !! k
        = (MapStore.updateUser id u1 st).1 !! k)
  /\ MapStore.updateUser id u1 (MapStore.updateUser id u1 st).2
     = MapStore.updateUser id u1 st.
Proof.
  intros Hid.
  assert (Hrec : forall u : gmap string MapStore.value,
             (MapStore.updateUser id u (MapStore.updateUser id u1 st).2).1
             = u ∪ (MapStore.updateUser id u1 st).1).
  { intros u.
    rewrite (map_update_store id u (MapStore.updateUser id u1 st).2)
      by now left.
    rewrite map_find_updated by now left. reflexivity. }
  split; [apply Hrec|]. split.
  - intros k Hk. rewrite Hrec. now apply lookup_union_r.
  - rewrite (map_update_store id u1 (MapStore.updateUser id u1 st).2)
      by now left.
    rewrite map_find_updated by now left.
    rewrite (map_update_store id u1 st) by now left.
    cbn [fst snd MapStore.users MapStore.own MapStore.proto MapStore.userId
         MapStore.spread].
    rewrite (assoc_L (∪)), (idemp_L (∪)).
    now rewrite insert_insert_eq.
Qed.

Lemma map_update_twice_witness :
  (MapStore.updateUser "1" jane_fields
     (MapStore.updateUser "1" (john_with_id "2") MapStore.empty).2).1 !! "id"
  = Some (MapStore.VStr "2").
Proof.
  destruct (map_update_twice "1" (john_with_id "2") jane_fields
              MapStore.empty) as (_ & Hkept & _); [discriminate|].
  rewrite (Hkept "id" eq_refl). reflexivity.
Defined.

(** X10. In the map store [deleteUser] after [updateUser] under the same
    key, other than ['__proto__'], gives the store of [deleteUser] alone;
    when the key read [undefined] before the update, it gives back exactly
    the store before the update. *)
Theorem map_delete_after_update (id : string)
  (user : gmap string MapStore.value) (st : MapStore.store) :
  (id <> "__proto__" ->
   MapStore.deleteUser id (MapStore.updateUser id user st).2
   = MapStore.deleteUser id st)
  /\ (MapStore.findUserById id st = MapStore.VUndefined ->
      MapStore.deleteUser id (MapStore.updateUser id user st).2 = st).
Proof.
  split.
  - intros Hid. rewrite map_update_store by now left.
    unfold MapStore.deleteUser.
    cbn [snd MapStore.users MapStore.own MapStore.proto MapStore.userId].
    now rewrite delete_insert_eq.
  - intros Hnone. rewrite (map_update_undefined id user st Hnone).
    unfold MapStore.deleteUser.
    cbn [snd MapStore.users MapStore.own MapStore.proto MapStore.userId].
    rewrite delete_insert_eq.
    apply map_get_undefined in Hnone. rewrite delete_id by exact Hnone.
    now destruct st as [[o p] n].
Qed.

Lemma map_delete_after_update_witness :
  MapStore.deleteUser "999"
    (MapStore.updateUser "999" jane_fields
       (MapStore.updateUser "1" (john_with_id "1") MapStore.empty).2).2
  = (MapStore.updateUser "1" (john_with_id "1") MapStore.empty).2.
Proof.
  apply (proj2 (map_delete_after_update "999" jane_fields
                  (MapStore.updateUser "1" (john_with_id "1")
                     MapStore.empty).2)).
  reflexivity.
Defined.

(** X11. In the map store calls under different keys do not interfere:
    [updateUser] returns the same record before or after [deleteUser] under
    another key, and the two give the same store in either order; so do two
    [updateUser] under different keys when neither key is ['__proto__'];
    two [deleteUser] commute. *)
Theorem map_calls_commute (k1 k2 : string)
  (u1 u2 : gmap string MapStore.value) (st : MapStore.store) :
  k1 <> k2 ->
  (k1 <> "__proto__" -> k2 <> "__proto__" ->
   MapStore.updateUser k1 u1 (MapStore.updateUser k2 u2 st).2
   = ((MapStore.updateUser k1 u1 st).1,
      (MapStore.updateUser k2 u2 (MapStore.updateUser k1 u1 st).2).2))
  /\ (MapStore.updateUser k1 u1 (MapStore.deleteUser k2 st)
      = ((MapStore.updateUser k1 u1 st).1,
         MapStore.deleteUser k2 (MapStore.updateUser k1 u1 st).2))
  /\ MapStore.deleteUser k1 (MapStore.deleteUser k2 st)
     = MapStore.deleteUser k2 (MapStore.deleteUser k1 st).
Proof.
  intros Hne. split; [|split].
  - intros H1 H2.
    rewrite (map_update_store k1 u1 (MapStore.updateUser k2 u2 st).2)
      by now left.
    rewrite (map_find_other k2 k1 u2 st) by (try left; congruence).
    rewrite (map_update_store k2 u2 (MapStore.updateUser k1 u1 st).2)
      by now left.
    rewrite (map_find_other k1 k2 u1 st) by (try left; congruence).
    rewrite (map_update_store k1 u1 st), (map_update_store k2 u2 st)
      by now left.
    cbn [fst snd MapStore.users MapStore.own MapStore.proto MapStore.userId].
    now rewrite (insert_insert_ne (MapStore.own (MapStore.users st)) k1 k2)
      by exact Hne.
  - assert (Hget : MapStore.get k1 (MapStore.users (MapStore.deleteUser k2 st))
                     = MapStore.get k1 (MapStore.users st)).
    { unfold MapStore.get, MapStore.inherited, MapStore.deleteUser.
      cbn [MapStore.users MapStore.own MapStore.proto].
      now rewrite lookup_delete_ne by congruence. }
    unfold MapStore.updateUser. rewrite Hget. cbn [fst snd].
    generalize (u1 ∪ MapStore.spread (MapStore.get k1 (MapStore.users st))).
    intros r. unfold MapStore.deleteUser, MapStore.set.
    cbn [MapStore.users MapStore.own MapStore.proto MapStore.userId].
    rewrite lookup_delete_ne by congruence.
    destruct (bool_decide _);
      cbn [MapStore.users MapStore.own MapStore.proto MapStore.userId];
      [reflexivity|].
    now rewrite (delete_insert_ne (MapStore.own (MapStore.users st)) k2 k1)
      by congruence.
  - unfold MapStore.deleteUser.
    cbn [MapStore.users MapStore.own MapStore.proto MapStore.userId].
    now rewrite (delete_delete (MapStore.own (MapStore.users st)) k1 k2).
Qed.

Lemma map_calls_commute_witness :
  MapStore.updateUser "1" (john_with_id "1")
    (MapStore.updateUser "2" jane_fields MapStore.empty).2
  = ((MapStore.updateUser "1" (john_with_id "1") MapStore.empty).1,
     (MapStore.updateUser "2" jane_fields
        (MapStore.updateUser "1" (john_with_id "1") MapStore.empty).2).2).
Proof.
  apply (map_calls_commute "1" "2" (john_with_id "1") jane_fields
           MapStore.empty); discriminate.
Defined.

(** ** The relational variant *)

Lemma pg_put_table (uid : Z) (b : body) (s : Bcrypt.salt)
  (table : list PgService.row) :
  present_non_empty (name b) \/ present_non_empty (email b)
  \/ present_non_empty (password b) ->
  PgService.put_users_id (Some uid) b s table
  = (match filter (fun r => PgService.id r = uid) table with
     | [] => PgService.user_not_found
     | r :: _ =>
         json_response 200
           (PgService.toJSON
              (pg_set (name b) (email b) (pg_hashed b s) uid r))
     end,
     pg_set (name b) (email b) (pg_hashed b s) uid <$> table).
Proof.
  intros H. unfold PgService.put_users_id.
  assert (Hall : not_ (name b) && not_ (email b) && not_ (password b) = false).
  { destruct H as [H|[H|H]]; apply not_false in H; rewrite H;
      rewrite ?andb_false_r; reflexivity. }
  rewrite Hall. unfold PgService.update_users, pg_set, pg_hashed.
  now destruct (filter _ table).
Qed.

Lemma pg_put_table_cases (userId : option Z) (b : body) (s : Bcrypt.salt)
  (table : list PgService.row) :
  (PgService.put_users_id userId b s table).2 = table
  \/ exists uid : Z,
      userId = Some uid
      /\ (PgService.put_users_id userId b s table).2
         = pg_set (name b) (email b) (pg_hashed b s) uid <$> table.
Proof.
  destruct userId as [uid|]; [|now left].
  destruct (not_ (name b) && not_ (email b) && not_ (password b)) eqn:Hall.
  - left. unfold PgService.put_users_id. now rewrite Hall.
  - right. exists uid. split; [reflexivity|].
    rewrite pg_put_table; [reflexivity|].
    rewrite <- !not_false.
    destruct (not_ (name b)), (not_ (email b)), (not_ (password b));
      simpl in Hall; auto; discriminate.
Qed.

Lemma fmap_pg_set {A : Type} (f : PgService.row -> A) (p1 p2 : option string)
  (p3 : option Bcrypt.encoded) (p4 : Z) (table : list PgService.row) :
  (forall r, f (pg_set p1 p2 p3 p4 r) = f r) ->
  f <$> (pg_set p1 p2 p3 p4 <$> table) = f <$> table.
Proof.
  intros Hf. rewrite <- list_fmap_compose.
  apply list_fmap_ext. intros i r _. apply Hf.
Qed.

(** X13. In the relational variant an update, whatever its answer, keeps
    the number of rows and every identifier, and keeps the column of a field
    the request leaves out: the stored hash when the password is absent or
    empty, the name when the name is absent, the email when the email is
    absent. *)
Theorem pg_update_frame (userId : option Z) (b : body) (s : Bcrypt.salt)
  (table : list PgService.row) :
  let table' := (PgService.put_users_id userId b s table).2 in
  length table' = length table
  /\ PgService.id <$> table' = PgService.id <$> table
  /\ (absent_or_empty (password b) ->
      PgService.password <$> table' = PgService.password <$> table)
  /\ (name b = None -> PgService.name <$> table' = PgService.name <$> table)
  /\ (email b = None ->
      PgService.email <$> table' = PgService.email <$> table).
Proof.
  simpl.
  destruct (pg_put_table_cases userId b s table) as [->|(uid & -> & ->)];
    [repeat split; reflexivity|].
  split; [now rewrite length_fmap|].
  split; [|split; [|split]].
  - apply fmap_pg_set. intros r. unfold pg_set. now case_decide.
  - intros Hp. apply fmap_pg_set. intros r. unfold pg_set, pg_hashed.
    apply not_true in Hp. destruct (password b) as [p|]; simpl in Hp.
    + rewrite Hp. now case_decide.
    + now case_decide.
  - intros Hn. apply fmap_pg_set. intros r. unfold pg_set.
    rewrite Hn. now case_decide.
  - intros He. apply fmap_pg_set. intros r. unfold pg_set.
    rewrite He. now case_decide.
Qed.

Lemma pg_update_frame_witness :
  let table :=
    [ {| PgService.id := 1; PgService.name := "John Doe";
         PgService.email := "john@example.com";
         PgService.password := Bcrypt.hash "password123" 12 "salt-1" |} ] in
  PgService.password <$>
    (PgService.put_users_id (Some 1)
       {| name := Some "Jane Doe"; email := None; password := None |}
       "salt-2" table).2
  = PgService.password <$> table.
Proof.
  apply (pg_update_frame (Some 1)
           {| name := Some "Jane Doe"; email := None; password := None |}
           "salt-2").
  left; reflexivity.
Defined.

(** The update route either is refused by the database, and answers 500 with
    the table unchanged, or is [PgService.put_users_id]. *)
Lemma pg_put_routes (accepts : PgRoutes.statement -> list PgService.row -> bool)
  (userId : option Z) (b : body) (s : Bcrypt.salt)
  (table : list PgService.row) :
  PgRoutes.put_users_id accepts userId b s table
  = match userId with
    | Some uid =>
        if not_ (name b) && not_ (email b) && not_ (password b)
        then PgService.put_users_id userId b s table
        else if accepts
                  (PgRoutes.UPDATE_users (name b) (email b) (pg_hashed b s)
                     uid) table
             then PgService.put_users_id userId b s table
             else (PgRoutes.internal_server_error, table)
    | None => PgService.put_users_id userId b s table
    end.
Proof.
  unfold PgRoutes.put_users_id, PgService.put_users_id, pg_hashed.
  destruct userId as [uid|]; [|reflexivity].
  destruct (not_ (name b) && not_ (email b) && not_ (password b));
    [reflexivity|].
  now destruct (accepts _ table).
Qed.

Lemma pg_put_validated (b : body) :
  present_non_empty (name b) \/ present_non_empty (email b)
  \/ present_non_empty (password b) ->
  not_ (name b) && not_ (email b) && not_ (password b) = false.
Proof.
  intros [H|[H|H]]; apply not_false in H; rewrite H;
    rewrite ?andb_false_r; reflexivity.
Qed.

(** A 200 answer of the update route: the database carried the statement
    out and the request passed validation. *)
Lemma pg_put_answered_200
  (accepts : PgRoutes.statement -> list PgService.row -> bool)
  (uid : Z) (b : body) (s : Bcrypt.salt) (table : list PgService.row) :
  status (PgRoutes.put_users_id accepts (Some uid) b s table).1 = 200%nat ->
  (present_non_empty (name b) \/ present_non_empty (email b)
   \/ present_non_empty (password b))
  /\ accepts (PgRoutes.UPDATE_users (name b) (email b) (pg_hashed b s) uid)
       table = true
  /\ PgRoutes.put_users_id accepts (Some uid) b s table
     = PgService.put_users_id (Some uid) b s table.
Proof.
  rewrite pg_put_routes.
  destruct (not_ (name b) && not_ (email b) && not_ (password b)) eqn:Hall.
  - unfold PgService.put_users_id. rewrite Hall. discriminate.
  - destruct (accepts _ table); [|discriminate]. intros _.
    split; [|split; reflexivity].
    rewrite <- !not_false.
    destruct (not_ (name b)), (not_ (email b)), (not_ (password b));
      simpl in Hall; auto; discriminate.
Qed.

(** X14. In the relational variant an update answered 200 has written each
    supplied name and email, the empty string included, and the hash of each
    non-empty password, into every row that has the requested identifier. *)
Theorem pg_update_writes
  (accepts : PgRoutes.statement -> list PgService.row -> bool)
  (uid : Z) (b : body) (s : Bcrypt.salt)
  (table : list PgService.row) (r' : PgService.row) :
  status (PgRoutes.put_users_id accepts (Some uid) b s table).1 = 200%nat ->
  r' ∈ (PgRoutes.put_users_id accepts (Some uid) b s table).2 ->
  PgService.id r' = uid ->
  (forall n : string, name b = Some n -> PgService.name r' = n)
  /\ (forall e : string, email b = Some e -> PgService.email r' = e)
  /\ (forall p : string,
         password b = Some p -> p <> "" ->
         PgService.password r' = Bcrypt.hash p 12 s).
Proof.
  intros Hok Hin Hid.
  destruct (pg_put_answered_200 accepts uid b s table Hok)
    as (Hsome & _ & Heq).
  rewrite Heq in Hin. rewrite pg_put_table in Hin by exact Hsome.
  simpl in Hin. apply list_elem_of_fmap in Hin as (r & -> & _).
  unfold pg_set in *. destruct (decide (PgService.id r = uid)) as [_|Hne];
    [|contradiction].
  simpl. split; [|split].
  - now intros n ->.
  - now intros e ->.
  - intros p Hp Hne. unfold pg_hashed. rewrite Hp.
    apply falsy_false in Hne. now rewrite Hne.
Qed.

Lemma pg_update_writes_witness :
  let blanked :=
    {| PgService.id := 1; PgService.name := "";
       PgService.email := "jane@example.com";
       PgService.password := Bcrypt.hash "password123" 12 "salt-1" |} in
  PgService.name blanked = "".
Proof.
  refine (proj1 (pg_update_writes accepts_integer_id_unique_email 1
                   {| name := Some ""; email := Some "jane@example.com";
                      password := None |} "salt-2"
                   [ {| PgService.id := 1; PgService.name := "John Doe";
                        PgService.email := "john@example.com";
                        PgService.password :=
                          Bcrypt.hash "password123" 12 "salt-1" |} ]
                   _ _ _ _) "" eq_refl).
  - reflexivity.
  - vm_compute. left.
  - reflexivity.
Defined.

(** X15. In the relational variant an update with a numeric identifier that
    passes validation is answered 500 "Internal server error", with the
    table unchanged, when the database refuses the statement; when the
    database carries it out, it is answered 404, with the table unchanged, if
    no row has the identifier, and 200 with a row of that identifier, which
    is in the resulting table, otherwise. *)
Theorem pg_update_found
  (accepts : PgRoutes.statement -> list PgService.row -> bool)
  (uid : Z) (b : body) (s : Bcrypt.salt) (table : list PgService.row) :
  present_non_empty (name b) \/ present_non_empty (email b)
  \/ present_non_empty (password b) ->
  (accepts (PgRoutes.UPDATE_users (name b) (email b) (pg_hashed b s) uid)
     table = false ->
   PgRoutes.put_users_id accepts (Some uid) b s table
   = (error_response 500 "Internal server error", table))
  /\
  (accepts (PgRoutes.UPDATE_users (name b) (email b) (pg_hashed b s) uid)
     table = true ->
   uid ∉ PgService.id <$> table ->
   PgRoutes.put_users_id accepts (Some uid) b s table
   = (error_response 404 "User not found", table))
  /\
  (accepts (PgRoutes.UPDATE_users (name b) (email b) (pg_hashed b s) uid)
     table = true ->
   uid ∈ PgService.id <$> table ->
   exists r' : PgService.row,
     (PgRoutes.put_users_id accepts (Some uid) b s table).1
     = json_response 200 (PgService.toJSON r')
     /\ PgService.id r' = uid
     /\ r' ∈ (PgRoutes.put_users_id accepts (Some uid) b s table).2).
Proof.
  intros Hsome. rewrite pg_put_routes, (pg_put_validated b Hsome).
  split; [now intros ->|].
  split; intros ->; rewrite pg_put_table by exact Hsome.
  - intros Hnot.
    assert (Hall : Forall (fun r => PgService.id r <> uid) table).
    { apply Forall_forall. intros r Hr Hid. apply Hnot.
      apply list_elem_of_fmap. now exists r. }
    f_equal.
    + destruct (filter _ table) as [|r rows] eqn:Hf; [reflexivity|].
      assert (Hr : r ∈ filter (fun r => PgService.id r = uid) table)
        by (rewrite Hf; left).
      apply list_elem_of_filter in Hr as [Hid Hr].
      rewrite Forall_forall in Hall. now destruct (Hall r Hr).
    + rewrite <- (list_fmap_id table) at 2. apply list_fmap_ext.
      intros i r Hr. unfold pg_set.
      rewrite decide_False; [reflexivity|].
      rewrite Forall_forall in Hall. apply Hall.
      now apply list_elem_of_lookup_2 in Hr.
  - intros (r & -> & Hr)%list_elem_of_fmap.
    destruct (filter _ table) as [|r0 rows] eqn:Hf.
    + exfalso. eapply (filter_nil_not_elem_of _ _ r Hf); [reflexivity|exact Hr].
    + assert (Hr0 : r0 ∈ filter
                      (fun x => PgService.id x = PgService.id r) table)
        by (rewrite Hf; left).
      apply list_elem_of_filter in Hr0 as [Hid Hr0].
      eexists. split; [reflexivity|]. split.
      * unfold pg_set. now rewrite decide_True by exact Hid.
      * simpl. apply list_elem_of_fmap. now exists r0.
Qed.

Lemma pg_update_found_witness :
  PgRoutes.put_users_id accepts_integer_id_unique_email
    (Some 99999999999999999999999)
    {| name := Some "Jane Doe"; email := None; password := None |}
    "salt-2" []
  = (error_response 500 "Internal server error", [])
  /\ PgRoutes.put_users_id accepts_integer_id_unique_email (Some 1)
       {| name := Some "Jane Doe"; email := None; password := None |}
       "salt-2" []
     = (error_response 404 "User not found", []).
Proof.
  split.
  - apply (pg_update_found accepts_integer_id_unique_email
             99999999999999999999999
             {| name := Some "Jane Doe"; email := None; password := None |}
             "salt-2" []).
    + left. exists "Jane Doe". split; [reflexivity|discriminate].
    + reflexivity.
  - apply (pg_update_found accepts_integer_id_unique_email 1
             {| name := Some "Jane Doe"; email := None; password := None |}
             "salt-2" []).
    + left. exists "Jane Doe". split; [reflexivity|discriminate].
    + reflexivity.
    + apply not_elem_of_nil.
Defined.

Lemma select_after_delete (uid : Z) (table : list PgService.row) :
  PgRoutes.select_users uid (PgRoutes.delete_users uid table).2 = [].
Proof.
  unfold PgRoutes.select_users, PgRoutes.delete_users; simpl.
  induction table as [|r table IH]; [reflexivity|].
  rewrite (filter_cons (fun r => PgService.id r <> uid)).
  destruct (decide (PgService.id r <> uid)) as [Hne|_]; [|exact IH].
  rewrite filter_cons_False by exact Hne. exact IH.
Qed.

(** X16. In the relational variant a delete with a numeric identifier that
    the database carries out keeps exactly the rows of other identifiers,
    and a read of the same identifier right after it, if the database
    carries it out, is answered 404 whatever the table held; a delete or a
    read the database refuses is answered 500 "Internal server error" and
    leaves the table unchanged. *)
Theorem pg_read_after_delete
  (accepts : PgRoutes.statement -> list PgService.row -> bool)
  (uid : Z) (table : list PgService.row) :
  let table' := (PgRoutes.delete_users_id accepts (Some uid) table).2 in
  (accepts (PgRoutes.DELETE_users uid) table = true ->
   table' = filter (fun r => PgService.id r <> uid) table
   /\ (accepts (PgRoutes.SELECT_users uid) table' = true ->
       PgRoutes.get_users_id accepts (Some uid) table'
       = (error_response 404 "User not found", table')))
  /\ (accepts (PgRoutes.DELETE_users uid) table = false ->
      PgRoutes.delete_users_id accepts (Some uid) table
      = (error_response 500 "Internal server error", table))
  /\ (accepts (PgRoutes.SELECT_users uid) table = false ->
      PgRoutes.get_users_id accepts (Some uid) table
      = (error_response 500 "Internal server error", table)).
Proof.
  cbv zeta. split; [|split].
  - intros Hdel.
    assert (Htable : (PgRoutes.delete_users_id accepts (Some uid) table).2
                     = (PgRoutes.delete_users uid table).2).
    { unfold PgRoutes.delete_users_id, PgRoutes.delete_users.
      rewrite Hdel. now destruct (filter _ table). }
    rewrite Htable. split; [reflexivity|].
    intros Hsel. unfold PgRoutes.get_users_id.
    now rewrite Hsel, select_after_delete.
  - intros Hdel. unfold PgRoutes.delete_users_id. now rewrite Hdel.
  - intros Hsel. unfold PgRoutes.get_users_id. now rewrite Hsel.
Qed.

Lemma pg_read_after_delete_witness :
  let table :=
    [ {| PgService.id := 1; PgService.name := "John Doe";
         PgService.email := "john@example.com";
         PgService.password := Bcrypt.hash "password123" 12 "salt-1" |} ] in
  PgRoutes.get_users_id accepts_integer_id_unique_email (Some 1)
    (PgRoutes.delete_users_id accepts_integer_id_unique_email (Some 1)
       table).2
  = (error_response 404 "User not found", [])
  /\ PgRoutes.get_users_id accepts_integer_id_unique_email
       (Some 99999999999999999999999) table
     = (error_response 500 "Internal server error", table).
Proof.
  cbv zeta. split.
  - apply (pg_read_after_delete accepts_integer_id_unique_email 1
             [ {| PgService.id := 1; PgService.name := "John Doe";
                  PgService.email := "john@example.com";
                  PgService.password :=
                    Bcrypt.hash "password123" 12 "salt-1" |} ]);
      reflexivity.
  - apply (pg_read_after_delete accepts_integer_id_unique_email
             99999999999999999999999
             [ {| PgService.id := 1; PgService.name := "John Doe";
                  PgService.email := "john@example.com";
                  PgService.password :=
                    Bcrypt.hash "password123" 12 "salt-1" |} ]).
    reflexivity.
Defined.

Lemma pg_post_accepted
  (accepts : PgRoutes.statement -> list PgService.row -> bool)
  (n e p : string) (s : Bcrypt.salt) (newid : Z)
  (table : list PgService.row) :
  n <> "" -> e <> "" -> p <> "" ->
  accepts (PgRoutes.INSERT_users n e (Bcrypt.hash p 12 s)) table = true ->
  let r := {| PgService.id := newid; PgService.name := n;
              PgService.email := e;
              PgService.password := Bcrypt.hash p 12 s |} in
  PgRoutes.post_users accepts
    {| name := Some n; email := Some e; password := Some p |} s newid table
  = (json_response 201 (PgService.toJSON r), table ++ [r]).
Proof.
  intros Hn He Hp Hacc. unfold PgRoutes.post_users; simpl.
  apply falsy_false in Hn, He, Hp. now rewrite Hn, He, Hp, Hacc.
Qed.

Lemma pg_post_refused
  (accepts : PgRoutes.statement -> list PgService.row -> bool)
  (n e p : string) (s : Bcrypt.salt) (newid : Z)
  (table : list PgService.row) :
  n <> "" -> e <> "" -> p <> "" ->
  accepts (PgRoutes.INSERT_users n e (Bcrypt.hash p 12 s)) table = false ->
  PgRoutes.post_users accepts
    {| name := Some n; email := Some e; password := Some p |} s newid table
  = (PgRoutes.internal_server_error, table).
Proof.
  intros Hn He Hp Hacc. unfold PgRoutes.post_users; simpl.
  apply falsy_false in Hn, He, Hp. now rewrite Hn, He, Hp, Hacc.
Qed.

Lemma pg_post_rejected
  (accepts : PgRoutes.statement -> list PgService.row -> bool)
  (b : body) (s : Bcrypt.salt) (newid : Z) (table : list PgService.row) :
  absent_or_empty (name b) \/ absent_or_empty (email b)
  \/ absent_or_empty (password b) ->
  PgRoutes.post_users accepts b s newid table
  = (PgRoutes.missing_required_fields, table).
Proof.
  intros H. unfold PgRoutes.post_users.
  destruct b as [[n|] [e|] [p|]]; simpl; try reflexivity.
  destruct H as [H|[H|H]]; apply not_true in H; simpl in H; rewrite H;
    rewrite ?orb_true_r; reflexivity.
Qed.

(** X17. In the relational variant a create in which name, email or
    password is absent or empty is answered 400 "Missing required fields"
    and leaves the table unchanged.  With all three non-empty, when the
    database carries out the INSERT it is answered 201 and appends one row,
    holding the name, the email and the cost-12 hash of the password, which
    the answer serialises with its [password] column; when the database
    refuses the INSERT it is answered 500 "Internal server error" and the
    table is unchanged. *)
Theorem pg_create
  (accepts : PgRoutes.statement -> list PgService.row -> bool)
  (b : body) (s : Bcrypt.salt) (newid : Z) (table : list PgService.row) :
  (absent_or_empty (name b) \/ absent_or_empty (email b)
   \/ absent_or_empty (password b) ->
   PgRoutes.post_users accepts b s newid table
   = (error_response 400 "Missing required fields", table))
  /\
  (forall n e p : string,
      b = {| name := Some n; email := Some e; password := Some p |} ->
      n <> "" -> e <> "" -> p <> "" ->
      (accepts (PgRoutes.INSERT_users n e (Bcrypt.hash p 12 s)) table = true ->
       exists r : PgService.row,
         PgRoutes.post_users accepts b s newid table
         = (json_response 201 (PgService.toJSON r), table ++ [r])
         /\ PgService.id r = newid
         /\ PgService.name r = n /\ PgService.email r = e
         /\ PgService.password r = Bcrypt.hash p 12 s
         /\ hasProperty "password" (PgService.toJSON r) = true)
      /\
      (accepts (PgRoutes.INSERT_users n e (Bcrypt.hash p 12 s)) table = false ->
       PgRoutes.post_users accepts b s newid table
       = (error_response 500 "Internal server error", table))).
Proof.
  split.
  - apply pg_post_rejected.
  - intros n e p -> Hn He Hp. split.
    + intros Hacc. eexists. split.
      * now apply pg_post_accepted.
      * repeat split.
    + intros Hacc. now apply pg_post_refused.
Qed.

Lemma pg_create_witness :
  let john :=
    {| PgService.id := 1; PgService.name := "John Doe";
       PgService.email := "john@example.com";
       PgService.password := Bcrypt.hash "password123" 12 "salt-1" |} in
  (exists r : PgService.row,
      PgRoutes.post_users accepts_integer_id_unique_email john_doe "salt-1" 1
        []
      = (json_response 201 (PgService.toJSON r), [r])
      /\ PgService.email r = "john@example.com")
  /\ PgRoutes.post_users accepts_integer_id_unique_email john_doe "salt-2" 2
       [john]
     = (error_response 500 "Internal server error", [john])
  /\ PgRoutes.post_users accepts_integer_id_unique_email
       john_doe_without_password "salt-1" 1 []
     = (error_response 400 "Missing required fields", []).
Proof.
  cbv zeta. split; [|split].
  - destruct (proj1 (proj2 (pg_create accepts_integer_id_unique_email
                              john_doe "salt-1" 1 [])
                       "John Doe" "john@example.com" "password123"
                       eq_refl ltac:(discriminate) ltac:(discriminate)
                       ltac:(discriminate)) eq_refl)
      as (r & Hpost & _ & _ & Hemail & _).
    exists r. split; [exact Hpost | exact Hemail].
  - apply (proj2 (pg_create accepts_integer_id_unique_email
                    john_doe "salt-2" 2
                    [ {| PgService.id := 1; PgService.name := "John Doe";
                         PgService.email := "john@example.com";
                         PgService.password :=
                           Bcrypt.hash "password123" 12 "salt-1" |} ])
             "John Doe" "john@example.com" "password123"
             eq_refl ltac:(discriminate) ltac:(discriminate)
             ltac:(discriminate)).
    reflexivity.
  - apply (proj1 (pg_create accepts_integer_id_unique_email
                    john_doe_without_password "salt-1" 1 [])).
    right; right; left; reflexivity.
Defined.

(** ** The document-store variant *)

(** Every create leaves the collection unchanged, with an answer other than
    201, or appends one document. *)
Lemma mongo_post_cases (b : body) (s : Bcrypt.salt)
  (oid : MongoService.ObjectId) (coll : list MongoService.document) :
  ((MongoService.post_users b s oid coll).2 = coll
   /\ status (MongoService.post_users b s oid coll).1 <> 201%nat)
  \/
  (exists n e p : string,
      b = {| name := Some n; email := Some e; password := Some p |}
      /\ n <> "" /\ e <> "" /\ p <> ""
      /\ ~ Exists (fun d' => MongoService._id d' = oid
                             \/ MongoService.email d' = e) coll
      /\ MongoService.post_users b s oid coll
         = (json_response 201
              (JObj [("message", JStr "User created successfully")]),
            coll ++ [ {| MongoService._id := oid; MongoService.name := n;
                         MongoService.email := e;
                         MongoService.password :=
                           Bcrypt.hash p MongoService.SALT_ROUNDS s;
                         MongoService.__v := 0 |} ])).
Proof.
  unfold MongoService.post_users.
  destruct (MongoService.validateInput b) as [r|] eqn:Hv.
  { left. split; [reflexivity|].
    unfold MongoService.validateInput in Hv.
    destruct (_ || _) in Hv; [|discriminate].
    injection Hv as <-. discriminate. }
  apply validateInput_passes in Hv
    as ((n & Hn & Hn') & (e & He & He') & (p & Hp & Hp')).
  destruct b as [bn be bp]; simpl in *; subst.
  unfold MongoService.create_user, MongoService.save; simpl.
  unfold MongoService.validators_pass.
  rewrite (proj2 (falsy_false n) Hn'), (proj2 (falsy_false e) He'); simpl.
  destruct (bool_decide _) eqn:Hdup.
  - left. split; [reflexivity|discriminate].
  - right. apply bool_decide_eq_false in Hdup.
    exists n, e, p. repeat split; assumption.
Qed.

(** X18. In the document-store variant a successful create stores exactly
    one new document: it has the drawn [_id], the submitted name and email,
    version 0 and a cost-12 bcrypt hash that [compare] accepts for the
    submitted password; the answer is a message only.  A create that is not
    answered 201 leaves the collection unchanged. *)
Theorem mongo_create_effect (b : body) (s : Bcrypt.salt)
  (oid : MongoService.ObjectId) (coll : list MongoService.document) :
  (status (MongoService.post_users b s oid coll).1 <> 201%nat ->
   (MongoService.post_users b s oid coll).2 = coll)
  /\
  (status (MongoService.post_users b s oid coll).1 = 201%nat ->
   exists (n e p : string) (d : MongoService.document),
     b = {| name := Some n; email := Some e; password := Some p |}
     /\ MongoService.post_users b s oid coll
        = (json_response 201
             (JObj [("message", JStr "User created successfully")]),
           coll ++ [d])
     /\ MongoService._id d = oid
     /\ MongoService.name d = n /\ MongoService.email d = e
     /\ MongoService.__v d = 0%nat
     /\ Bcrypt.cost (MongoService.password d) = 12%nat
     /\ Bcrypt.compare p (MongoService.password d) = true).
Proof.
  destruct (mongo_post_cases b s oid coll)
    as [[Hsame Hst]|(n & e & p & Hb & _ & _ & _ & _ & Hpost)].
  - split; [intros _; exact Hsame | intros H; contradiction].
  - split.
    + rewrite Hpost. intros H. now destruct H.
    + intros _. exists n, e, p. eexists. split; [exact Hb|].
      split; [exact Hpost|]. repeat split. apply compare_hash.
Qed.

Lemma mongo_create_effect_witness :
  (MongoService.post_users john_doe_without_password "salt-1"
     "63f9c6f9c6f9c6f9c6f9c6f9" []).2 = [].
Proof.
  apply (proj1 (mongo_create_effect john_doe_without_password "salt-1"
                  "63f9c6f9c6f9c6f9c6f9c6f9" [])).
  discriminate.
Defined.

(** X19. In the document-store variant a successful create makes its address
    taken: a later create with the same email and all three fields, on the
    collection the first one left, is answered 409 "Email already exists"
    and stores nothing. *)
Theorem mongo_create_then_duplicate (b : body) (s s' : Bcrypt.salt)
  (oid oid' : MongoService.ObjectId) (coll : list MongoService.document)
  (n' e p' : string) :
  status (MongoService.post_users b s oid coll).1 = 201%nat ->
  email b = Some e ->
  n' <> "" -> p' <> "" ->
  MongoService.post_users
    {| name := Some n'; email := Some e; password := Some p' |} s' oid'
    (MongoService.post_users b s oid coll).2
  = (error_response 409 "Email already exists",
     (MongoService.post_users b s oid coll).2).
Proof.
  intros Hok He Hn' Hp'.
  destruct (mongo_post_cases b s oid coll)
    as [[_ Hst]|(n & e0 & p & -> & _ & He0 & _ & _ & Hpost)];
    [contradiction|].
  simpl in He. injection He as ->. rewrite Hpost. simpl.
  apply mongo_post_duplicate; try assumption.
  rewrite fmap_app. apply elem_of_app. right. simpl. left.
Qed.

Lemma mongo_create_then_duplicate_witness :
  MongoService.post_users
    {| name := Some "Jane Doe"; email := Some "john@example.com";
       password := Some "newpassword" |} "salt-2" "63f9c6f9c6f9c6f9c6f9c6fa"
    (MongoService.post_users john_doe "salt-1" "63f9c6f9c6f9c6f9c6f9c6f9"
       []).2
  = (error_response 409 "Email already exists",
     (MongoService.post_users john_doe "salt-1" "63f9c6f9c6f9c6f9c6f9c6f9"
        []).2).
Proof.
  apply (mongo_create_then_duplicate john_doe "salt-1" "salt-2"
           "63f9c6f9c6f9c6f9c6f9c6f9" "63f9c6f9c6f9c6f9c6f9c6fa" []
           "Jane Doe" "john@example.com" "newpassword");
    (reflexivity || discriminate).
Defined.

Lemma mongo_put_cases (id : option MongoService.ObjectId) (b : body)
  (s : Bcrypt.salt) (coll : list MongoService.document) :
  ((MongoService.put_users_id id b s coll).2 = coll
   /\ status (MongoService.put_users_id id b s coll).1 <> 200%nat)
  \/
  (exists (oid : MongoService.ObjectId) (i : nat)
          (d0 : MongoService.document) (n e p : string),
      id = Some oid
      /\ b = {| name := Some n; email := Some e; password := Some p |}
      /\ list_find (fun d => MongoService._id d = oid) coll = Some (i, d0)
      /\ ~ Exists (fun d' => MongoService._id d' <> oid
                             /\ MongoService.email d' = e) coll
      /\ let d' := {| MongoService._id := MongoService._id d0;
                      MongoService.name := n; MongoService.email := e;
                      MongoService.password :=
                        Bcrypt.hash p MongoService.SALT_ROUNDS s;
                      MongoService.__v := MongoService.__v d0 |} in
         MongoService.put_users_id id b s coll
         = (json_response 200
              (JObj [("message", JStr "User updated successfully");
                     ("user", MongoService.toJSON d')]),
            <[i := d']> coll)).
Proof.
  unfold MongoService.put_users_id.
  destruct (MongoService.validateInput b) as [r|] eqn:Hv.
  { left. split; [reflexivity|].
    unfold MongoService.validateInput in Hv.
    destruct (_ || _) in Hv; [|discriminate].
    injection Hv as <-. discriminate. }
  apply validateInput_passes in Hv
    as ((n & Hn & Hn') & (e & He & He') & (p & Hp & Hp')).
  destruct b as [bn be bp]; simpl in *; subst.
  unfold MongoService.update_user, MongoService.findByIdAndUpdate; simpl.
  destruct id as [oid|]; [|left; split; [reflexivity|discriminate]].
  unfold MongoService.validators_pass.
  rewrite (proj2 (falsy_false n) Hn'), (proj2 (falsy_false e) He'); simpl.
  destruct (list_find _ coll) as [[i d0]|] eqn:Hfind;
    [|left; split; [reflexivity|discriminate]].
  destruct (bool_decide _) eqn:Hdup.
  - left. split; [reflexivity|discriminate].
  - right. apply bool_decide_eq_false in Hdup.
    exists oid, i, d0, n, e, p. repeat split; assumption.
Qed.

(** Replacing one element of a duplicate-free list by a value no other
    position holds leaves it duplicate-free. *)
Lemma NoDup_insert_fresh {A : Type} (l : list A) (i : nat) (x : A) :
  NoDup l ->
  (forall (j : nat) (y : A), l !! j = Some y -> j <> i -> y <> x) ->
  NoDup (<[i := x]> l).
Proof.
  intros Hl. revert i. induction Hl as [|a l Ha Hl IH]; intros i Hx.
  { constructor. }
  destruct i as [|i]; simpl.
  - constructor; [|exact Hl].
    intros [j Hj]%list_elem_of_lookup.
    now apply (Hx (Datatypes.S j) x Hj).
  - constructor.
    + intros [j Hj]%list_elem_of_lookup.
      apply list_lookup_insert_Some in Hj as [(-> & -> & _)|[Hne Hj]].
      * now apply (Hx 0%nat a eq_refl).
      * apply Ha. apply list_elem_of_lookup. now exists j.
    + apply IH. intros j y Hj Hne.
      apply (Hx (Datatypes.S j) y Hj). congruence.
Qed.

(** X20. In the document-store variant no create, update or delete, whatever
    its arguments and its answer, breaks the uniqueness of the stored emails
    and identifiers. *)
Theorem mongo_keeps_unique_keys (coll : list MongoService.document) :
  unique_keys coll ->
  (forall b s oid, unique_keys (MongoService.post_users b s oid coll).2)
  /\ (forall id b s, unique_keys (MongoService.put_users_id id b s coll).2)
  /\ (forall id, unique_keys (MongoService.delete_users_id id coll).2).
Proof.
  intros [Hemail Hid]. split; [|split].
  - intros b s oid.
    destruct (mongo_post_cases b s oid coll)
      as [[-> _]|(n & e & p & _ & _ & _ & _ & Hfresh & ->)];
      [now split|].
    simpl. rewrite Exists_exists in Hfresh.
    split; rewrite fmap_app; apply NoDup_app; (split; [assumption|]);
      (split; [|apply NoDup_singleton]);
      intros x (d & -> & Hd)%list_elem_of_fmap Hx%list_elem_of_singleton;
      apply Hfresh; exists d; simpl in Hx; auto.
  - intros id b s.
    destruct (mongo_put_cases id b s coll)
      as [[-> _]|(oid & i & d0 & n & e & p & _ & _ & Hfind & Hfresh & ->)];
      [now split|].
    apply list_find_Some in Hfind as (Hi & Hoid & _).
    simpl. split; rewrite list_fmap_insert; simpl.
    + apply NoDup_insert_fresh; [exact Hemail|].
      intros j y Hj Hne ->.
      rewrite list_lookup_fmap in Hj.
      destruct (coll !! j) as [dj|] eqn:Hdj; [|discriminate].
      injection Hj as Hj. apply Hfresh, Exists_exists.
      exists dj. split; [now apply list_elem_of_lookup_2 in Hdj|].
      split; [|exact Hj]. intros Hsame. apply Hne.
      apply (NoDup_lookup _ _ _ oid Hid); rewrite list_lookup_fmap.
      * now rewrite Hdj, <- Hsame.
      * now rewrite Hi, <- Hoid.
    + rewrite list_insert_id; [exact Hid|].
      now rewrite list_lookup_fmap, Hi.
  - intros id. unfold MongoService.delete_users_id,
      MongoService.findByIdAndDelete.
    destruct id as [oid|]; [|now split].
    destruct (list_find _ coll) as [[i d]|]; [|now split].
    simpl. split; rewrite list_fmap_delete.
    + exact (sublist_NoDup _ _ Hemail (sublist_delete _ i)).
    + exact (sublist_NoDup _ _ Hid (sublist_delete _ i)).
Qed.

Lemma mongo_keeps_unique_keys_witness :
  unique_keys
    (MongoService.post_users john_doe "salt-1" "63f9c6f9c6f9c6f9c6f9c6f9"
       []).2.
Proof.
  apply (mongo_keeps_unique_keys []).
  split; constructor.
Defined.

(** X21. In the document-store variant an update answered 200 replaced one
    document at its position by one with the same [_id] and version and the
    submitted name and email, and the answer serialises that document under
    [user] with its [password] property. *)
Theorem mongo_update_answer (id : option MongoService.ObjectId) (b : body)
  (s : Bcrypt.salt) (coll : list MongoService.document) :
  status (MongoService.put_users_id id b s coll).1 = 200%nat ->
  exists (i : nat) (d0 d' : MongoService.document),
    coll !! i = Some d0
    /\ id = Some (MongoService._id d0)
    /\ (MongoService.put_users_id id b s coll).2 = <[i := d']> coll
    /\ MongoService._id d' = MongoService._id d0
    /\ MongoService.__v d' = MongoService.__v d0
    /\ Some (MongoService.name d') = name b
    /\ Some (MongoService.email d') = email b
    /\ payload (MongoService.put_users_id id b s coll).1
         ≫= getProperty "user" = Some (MongoService.toJSON d')
    /\ hasProperty "password" (MongoService.toJSON d') = true.
Proof.
  intros Hok.
  destruct (mongo_put_cases id b s coll)
    as [[_ Hst]|(oid & i & d0 & n & e & p & -> & -> & Hfind & _ & Hput)];
    [contradiction|].
  apply list_find_Some in Hfind as (Hi & Hoid & _).
  simpl in Hput. rewrite Hput. eexists i, d0, _.
  split; [exact Hi|]. split; [now rewrite Hoid|].
  split; [reflexivity|]. repeat split.
Qed.

Lemma mongo_update_answer_witness :
  let test_user :=
    {| MongoService._id := "63f9c6f9c6f9c6f9c6f9c6f9";
       MongoService.name := "Test User";
       MongoService.email := "test@example.com";
       MongoService.password := Bcrypt.hash "password" 12 "salt-0";
       MongoService.__v := 0 |} in
  exists (i : nat) (d0 d' : MongoService.document),
    [test_user] !! i = Some d0
    /\ Some "63f9c6f9c6f9c6f9c6f9c6f9" = Some (MongoService._id d0)
    /\ (MongoService.put_users_id (Some "63f9c6f9c6f9c6f9c6f9c6f9") jane_doe
          "salt-2" [test_user]).2 = <[i := d']> [test_user]
    /\ MongoService._id d' = MongoService._id d0
    /\ MongoService.__v d' = MongoService.__v d0
    /\ Some (MongoService.name d') = name jane_doe
    /\ Some (MongoService.email d') = email jane_doe
    /\ payload
         (MongoService.put_users_id (Some "63f9c6f9c6f9c6f9c6f9c6f9") jane_doe
            "salt-2" [test_user]).1
         ≫= getProperty "user" = Some (MongoService.toJSON d')
    /\ hasProperty "password" (MongoService.toJSON d') = true.
Proof.
  apply (mongo_update_answer (Some "63f9c6f9c6f9c6f9c6f9c6f9") jane_doe
           "salt-2").
  reflexivity.
Defined.

(** X22. In the document-store variant neither read route ever answers with
    a [password] property: not the body of a read by identifier, whatever it
    answers, and no item of the list, which has one item per document. *)
Theorem mongo_reads_hide_password :
  (forall (id : option MongoService.ObjectId)
          (coll : list MongoService.document) (j : json),
      payload (MongoService.get_users_id id coll).1 = Some j ->
      hasProperty "password" j = false)
  /\
  (forall coll : list MongoService.document,
      exists items : list json,
        payload (MongoService.get_users coll).1 = Some (JArr items)
        /\ length items = length coll
        /\ Forall (fun j => hasProperty "password" j = false) items).
Proof.
  split.
  - apply mongo_get_users_id_hides_password.
  - intros coll. eexists. split; [reflexivity|]. split.
    + apply length_fmap.
    + apply Forall_fmap, Forall_forall. intros d _. reflexivity.
Qed.

Lemma mongo_reads_hide_password_witness :
  hasProperty "password"
    (JObj [("_id", JStr "63f9c6f9c6f9c6f9c6f9c6f9");
           ("name", JStr "Test User"); ("email", JStr "test@example.com");
           ("__v", JNum 0)]) = false.
Proof.
  apply (proj1 mongo_reads_hide_password (Some "63f9c6f9c6f9c6f9c6f9c6f9")
           [ {| MongoService._id := "63f9c6f9c6f9c6f9c6f9c6f9";
                MongoService.name := "Test User";
                MongoService.email := "test@example.com";
                MongoService.password := Bcrypt.hash "password" 12 "salt-0";
                MongoService.__v := 0 |} ]).
  reflexivity.
Defined.

(** ** The CORS origin checks *)

Lemma cors_unlisted (s : string) :
  s <> "https://example.com" -> s <> "http://localhost:3000" ->
  Cors.indexOf Cors.allowedOrigins (Some s) = -1
  /\ Cors.includes Cors.allowedOrigins (Some s) = false.
Proof.
  intros H1 H2. split.
  - unfold Cors.indexOf, Cors.allowedOrigins. simpl.
    rewrite !decide_False by congruence. reflexivity.
  - unfold Cors.includes, Cors.allowedOrigins.
    apply bool_decide_eq_false.
    intros [->|[->|Hin%elem_of_nil]%elem_of_cons]%elem_of_cons;
      [now apply H1 | now apply H2 | exact Hin].
Qed.

(** X23. The CORS origin checks of the array variant and of the
    document-store variant give the same verdict for every origin: a request
    is allowed exactly when it names no origin, or the empty one, or one of
    the two listed origins, and refused with "Not allowed by CORS"
    otherwise. *)
Theorem cors_checks_agree (origin : option string) :
  Cors.origin_part_000 origin = Cors.origin_part_004 origin
  /\ (Cors.origin_part_000 origin = Cors.Allowed
      <-> absent_or_empty origin
          \/ origin = Some "https://example.com"
          \/ origin = Some "http://localhost:3000")
  /\ (Cors.origin_part_000 origin = Cors.Allowed
      \/ Cors.origin_part_000 origin = Cors.Refused "Not allowed by CORS").
Proof.
  destruct origin as [s|].
  2:{ split; [reflexivity|]. split; [|now left].
      split; [intros _; left; now left | reflexivity]. }
  destruct (decide (s = "https://example.com")) as [->|H1].
  { split; [reflexivity|]. split; [|now left].
    split; [intros _; right; now left | reflexivity]. }
  destruct (decide (s = "http://localhost:3000")) as [->|H2].
  { split; [reflexivity|]. split; [|now left].
    split; [intros _; right; now right | reflexivity]. }
  destruct (cors_unlisted s H1 H2) as [Hidx Hinc].
  unfold Cors.origin_part_000, Cors.origin_part_004.
  rewrite Hidx, Hinc, orb_false_r. simpl.
  destruct (falsy s) eqn:Hs.
  - split; [reflexivity|]. split; [|now left].
    apply falsy_true in Hs. subst s.
    split; [intros _; left; now right | reflexivity].
  - split; [reflexivity|]. split; [|now right].
    apply falsy_false in Hs. split; [discriminate|].
    intros [[H|H]|[H|H]]; congruence.
Qed.

(** ** The document-store variant, continued *)

(** X24. In the document-store variant a create, an update or a delete
    answered with an error status (400 or above) leaves the collection as it
    was. *)
Theorem mongo_error_leaves_collection (coll : list MongoService.document) :
  (forall b s oid,
      (400 <= status (MongoService.post_users b s oid coll).1)%nat ->
      (MongoService.post_users b s oid coll).2 = coll)
  /\ (forall id b s,
         (400 <= status (MongoService.put_users_id id b s coll).1)%nat ->
         (MongoService.put_users_id id b s coll).2 = coll)
  /\ (forall id,
         (400 <= status (MongoService.delete_users_id id coll).1)%nat ->
         (MongoService.delete_users_id id coll).2 = coll).
Proof.
  split; [|split].
  - intros b s oid.
    destruct (mongo_post_cases b s oid coll)
      as [[Hsame _]|(n & e & p & _ & _ & _ & _ & _ & ->)];
      [intros _; exact Hsame|].
    simpl. intros H. exfalso. revert H. apply Nat.lt_nge. vm_compute. lia.
  - intros id b s.
    destruct (mongo_put_cases id b s coll)
      as [[Hsame _]|(oid & i & d0 & n & e & p & _ & _ & _ & _ & ->)];
      [intros _; exact Hsame|].
    simpl. intros H. exfalso. revert H. apply Nat.lt_nge. vm_compute. lia.
  - intros id. unfold MongoService.delete_users_id.
    destruct (MongoService.findByIdAndDelete id coll) as [err|[[d|] c]];
      simpl; [reflexivity| |reflexivity].
    intros H. exfalso. revert H. apply Nat.lt_nge. vm_compute. lia.
Qed.

Lemma mongo_error_leaves_collection_witness :
  (MongoService.delete_users_id (Some "63f9c6f9c6f9c6f9c6f9c6f9") []).2 = [].
Proof.
  apply (proj2 (proj2 (mongo_error_leaves_collection []))
           (Some "63f9c6f9c6f9c6f9c6f9c6f9")).
  vm_compute. lia.
Defined.

(** X25. In the document-store variant a read of the drawn [_id] right after
    a successful create is answered 200 with the new document, serialised
    without its [password]: the create succeeds only when no stored document
    has that [_id]. *)
Theorem mongo_read_after_create (b : body) (s : Bcrypt.salt)
  (oid : MongoService.ObjectId) (coll : list MongoService.document) :
  status (MongoService.post_users b s oid coll).1 = 201%nat ->
  exists d : MongoService.document,
    (MongoService.post_users b s oid coll).2 = coll ++ [d]
    /\ Some (MongoService.name d) = name b
    /\ Some (MongoService.email d) = email b
    /\ MongoService.get_users_id (Some oid)
         (MongoService.post_users b s oid coll).2
       = (json_response 200 (MongoService.toJSON_without_password d),
          (MongoService.post_users b s oid coll).2).
Proof.
  intros Hok.
  destruct (mongo_post_cases b s oid coll)
    as [[_ Hst]|(n & e & p & -> & _ & _ & _ & Hfresh & ->)];
    [contradiction|].
  eexists. split; [reflexivity|]. split; [reflexivity|].
  split; [reflexivity|].
  unfold MongoService.get_users_id, MongoService.findById. simpl.
  rewrite list_find_app_r.
  - simpl. rewrite decide_True by reflexivity. reflexivity.
  - apply list_find_None, Forall_forall. intros d Hd Hid.
    apply Hfresh, Exists_exists. exists d. auto.
Qed.

Lemma mongo_read_after_create_witness :
  exists d : MongoService.document,
    (MongoService.post_users john_doe "salt-1" "63f9c6f9c6f9c6f9c6f9c6f9"
       []).2 = [] ++ [d]
    /\ Some (MongoService.name d) = name john_doe
    /\ Some (MongoService.email d) = email john_doe
    /\ MongoService.get_users_id (Some "63f9c6f9c6f9c6f9c6f9c6f9")
         (MongoService.post_users john_doe "salt-1"
            "63f9c6f9c6f9c6f9c6f9c6f9" []).2
       = (json_response 200 (MongoService.toJSON_without_password d),
          (MongoService.post_users john_doe "salt-1"
             "63f9c6f9c6f9c6f9c6f9c6f9" []).2).
Proof.
  apply (mongo_read_after_create john_doe "salt-1"
           "63f9c6f9c6f9c6f9c6f9c6f9" []).
  reflexivity.
Defined.
